(** * Tenant authentication, quota enforcement and real-time sessions

    A shallow embedding of [backend/middleware/auth.js] (the HTTP
    middleware: [authenticateTenant], [checkRateLimit], [logAPIUsage],
    [requirePermission]) and of the [setupWebSocket] part of the server
    class, over the tables of [database/init.sql].

    Conventions of the embedding:
    - a table is the list of its rows, in storage order; a nullable column
      is an [option];
    - a timestamp is a number of milliseconds since the epoch, in UTC (the
      store's session time zone is taken to be UTC, as the code does when
      it sends the ISO date of [new Date()] as the lower bound of a day);
    - [pool.query] either returns its rows or throws; which statements throw
      is part of the environment a handler runs in;
    - an [async] function is a computation over the store that returns a
      value or throws, effects made before a throw are kept. *)

From stdpp Require Import base strings list gmap pretty.
From Stdlib Require Import ZArith Lia.

Local Open Scope string_scope.
Local Open Scope Z_scope.

(** * JavaScript values and coercions used by the middleware *)

Module Js.

(** What a property of a parsed JSON object can hold, as far as the
    middleware looks at it: only its truthiness is ever used. [JObject]
    stands for any object, array or function. *)
Inductive value :=
| JUndefined
| JNull
| JBool (b : bool)
| JNum (n : Z)
| JStr (s : string)
| JObject.

Definition truthy (v : value) : bool :=
  match v with
  | JUndefined | JNull => false
  | JBool b => b
  | JNum n => negb (n =? 0)
  | JStr s => negb (String.eqb s "")
  | JObject => true
  end.

(** The members every plain object inherits from [Object.prototype]; all
    of them are functions or objects. *)
Definition Object_prototype : list string :=
  [ "constructor"; "hasOwnProperty"; "isPrototypeOf";
    "propertyIsEnumerable"; "toLocaleString"; "toString"; "valueOf";
    "__proto__"; "__defineGetter__"; "__defineSetter__";
    "__lookupGetter__"; "__lookupSetter__" ].

(** [o[k]] on a plain object: own property first, then the prototype. *)
Definition get (o : gmap string value) (k : string) : value :=
  match o !! k with
  | Some v => v
  | None => if bool_decide (k ∈ Object_prototype) then JObject else JUndefined
  end.

(** Truthiness of a nullable number and of a possibly missing string. *)
Definition truthy_num (a : option Z) : bool :=
  match a with Some n => negb (n =? 0) | None => false end.

Definition truthy_str (a : option string) : bool :=
  match a with Some s => negb (String.eqb s "") | None => false end.

(** [a || b] *)
Definition or_num (a b : option Z) : option Z :=
  if truthy_num a then a else b.

Definition or_str (a b : option string) : option string :=
  if truthy_str a then a else b.

(** [n < lim] where [lim] may be [null], which converts to [0]. *)
Definition lt_num (n : Z) (lim : option Z) : bool :=
  match lim with Some l => n <? l | None => n <? 0 end.

(** [`${lim}`] *)
Definition show_num (lim : option Z) : string :=
  match lim with Some l => pretty l | None => "null" end.

(** [s.replace(pat, rep)] with a string pattern: the first occurrence. *)
Fixpoint replace (pat rep s : string) : string :=
  if String.prefix pat s
  then rep +:+ String.substring (String.length pat) (String.length s) s
  else match s with
       | EmptyString => EmptyString
       | String c s' => String c (replace pat rep s')
       end.

End Js.

(** * The relational store *)

Module Sql.

(** Three-valued logic: [None] is SQL's unknown. A row is selected,
    updated or deleted only where the condition [holds]. *)
Definition tv := option bool.

Definition and3 (a b : tv) : tv :=
  match a, b with
  | Some false, _ | _, Some false => Some false
  | Some true, Some true => Some true
  | _, _ => None
  end.

Definition or3 (a b : tv) : tv :=
  match a, b with
  | Some true, _ | _, Some true => Some true
  | Some false, Some false => Some false
  | _, _ => None
  end.

Definition eq_str (a b : option string) : tv :=
  match a, b with
  | Some x, Some y => Some (String.eqb x y)
  | _, _ => None
  end.

Definition eq_bool (a b : option bool) : tv :=
  match a, b with
  | Some x, Some y => Some (Bool.eqb x y)
  | _, _ => None
  end.

Definition lt_ts (a b : option Z) : tv :=
  match a, b with
  | Some x, Some y => Some (x <? y)
  | _, _ => None
  end.

Definition ge_ts (a b : option Z) : tv :=
  match a, b with
  | Some x, Some y => Some (y <=? x)
  | _, _ => None
  end.

Definition holds (c : tv) : bool :=
  match c with Some true => true | _ => false end.

End Sql.

(** ** Rows of [init.sql] *)

Inductive Plan := basic | pro | enterprise.

Global Instance Plan_eq_dec : EqDecision Plan.
Proof. solve_decision. Defined.

Abbreviation Permissions := (gmap string Js.value).

Record Tenant := {
  t_id : string;
  t_name : string;
  t_subdomain : string;
  t_api_key : string;
  t_plan : option Plan;
  t_max_endpoints : option Z;
  t_max_requests_per_day : option Z;
  t_is_active : option bool
}.

Record ApiKey := {
  ak_tenant_id : option string;
  ak_key_name : string;
  ak_api_key : string;
  ak_permissions : option Permissions;
  ak_rate_limit : option Z;
  ak_is_active : option bool;
  ak_expires_at : option Z;
  ak_last_used_at : option Z
}.

Record UsageLog := {
  ul_tenant_id : option string;
  ul_request_method : string;
  ul_request_path : string;
  ul_request_headers : list (string * option string);
  ul_response_status : option Z;
  ul_ip_address : string;
  ul_user_agent : option string;
  ul_api_key_used : string;
  ul_created_at : option Z
}.

Record Connection := {
  rc_tenant_id : option string;
  rc_connection_id : string;
  rc_socket_id : string;
  rc_user_info : list (string * Z);
  rc_connected_at : option Z;
  rc_last_ping_at : option Z;
  rc_is_active : option bool
}.

Record DB := {
  tenants : list Tenant;
  api_keys : list ApiKey;
  api_usage_logs : list UsageLog;
  realtime_connections : list Connection
}.

Definition with_api_keys (l : list ApiKey) (db : DB) : DB :=
  {| tenants := tenants db; api_keys := l;
     api_usage_logs := api_usage_logs db;
     realtime_connections := realtime_connections db |}.

Definition with_api_usage_logs (l : list UsageLog) (db : DB) : DB :=
  {| tenants := tenants db; api_keys := api_keys db;
     api_usage_logs := l;
     realtime_connections := realtime_connections db |}.

Definition with_realtime_connections (l : list Connection) (db : DB) : DB :=
  {| tenants := tenants db; api_keys := api_keys db;
     api_usage_logs := api_usage_logs db;
     realtime_connections := l |}.


Definition unique_api_keys (db : DB) : Prop :=
  NoDup (ak_api_key <$> api_keys db).

Definition unique_connection_ids (db : DB) : Prop :=
  NoDup (rc_connection_id <$> realtime_connections db).

(** ** The environment of a handler run *)

(** The statements the code sends through [pool.query], one per call site. *)
Inductive Stmt :=
| SelectTenantById        (* authenticateTenant, session token *)
| SelectTenantByKey       (* authenticateTenant, opaque key *)
| UpdateKeyLastUsed       (* authenticateTenant *)
| CountUsage              (* checkRateLimit *)
| InsertUsage             (* logAPIUsage *)
| SelectTenantForJoin     (* 'join-tenant' *)
| UpsertConnection        (* 'join-tenant' *)
| UpdatePing              (* 'ping' *)
| UpdateInactive          (* 'disconnect' *)
| DeleteStale.            (* the interval of setupWebSocket *)

Record Env := {
  now : Z;                              (* new Date(), CURRENT_TIMESTAMP *)
  jwt_verify : string → option string;  (* decoded.tenantId, None: throws *)
  down : Stmt → bool                    (* the statements that throw *)
}.

(** * Asynchronous computations over a state *)

Inductive Res (A : Type) :=
| Ok (a : A)
| Throw.
Arguments Ok {A} a.
Arguments Throw {A}.

Definition Async (S A : Type) : Type := S → Res A * S.

Definition ret {S A} (a : A) : Async S A := λ s, (Ok a, s).

Definition throw {S A} : Async S A := λ s, (Throw, s).

Definition bind {S A B} (m : Async S A) (k : A → Async S B) : Async S B :=
  λ s, match m s with
       | (Ok a, s') => k a s'
       | (Throw, s') => (Throw, s')
       end.

(** [try { m } catch { h }] *)
Definition try_catch {S A} (m h : Async S A) : Async S A :=
  λ s, match m s with
       | (Ok a, s') => (Ok a, s')
       | (Throw, s') => h s'
       end.

Definition get_state {S} : Async S S := λ s, (Ok s, s).
Definition modify {S} (f : S → S) : Async S unit := λ s, (Ok tt, f s).

Declare Scope async_scope.
Delimit Scope async_scope with async.
Notation "'let*' x := m 'in' k" := (bind m (λ x, k))
  (at level 10, x name, m at level 100, k at level 200) : async_scope.
Local Open Scope async_scope.

(** [await pool.query(stmt, ...)]: [run] is what the statement does to the
    store when the store answers. *)
Definition pool_query {A} (env : Env) (stmt : Stmt) (run : DB → A * DB)
  : Async DB A :=
  λ db, if down env stmt then (Throw, db)
        else let '(a, db') := run db in (Ok a, db').

(** * The HTTP middleware *)

(** ** Requests and responses *)

(** [req.tenant]: the row of [tenants] itself on the session-token path
    (no [permissions], no [rate_limit] property), the object built at the
    end of [authenticateTenant] on the key path. *)
Record TenantInfo := {
  id : string;
  name : string;
  subdomain : string;
  plan : option Plan;
  max_endpoints : option Z;
  max_requests_per_day : option Z;
  permissions : option Permissions;   (* None: no such property *)
  rate_limit : option Z
}.

Inductive AuthMethod := jwt | api_key.

Record Request := {
  headers : gmap string string;
  query : gmap string string;
  method : string;
  path : string;
  ip : string;
  (* set by the middleware *)
  tenant : option TenantInfo;
  authMethod : option AuthMethod;
  apiKey : option string;
  startTime : option Z
}.

(** [res.status(code).json({ error, message, resetTime })] *)
Record Response := {
  status : Z;
  error : string;
  message : string;
  resetTime : option Z
}.

Inductive Outcome :=
| Next (req : Request)
| Respond (res : Response).

Definition json (code : Z) (err msg : string) : Outcome :=
  Respond {| status := code; error := err; message := msg;
             resetTime := None |}.

(** The error kinds of the middleware, by what it sends. *)
Definition Unauthenticated : Outcome :=
  json 401 "Authentication required"
    "API key must be provided in X-API-Key header, Authorization header, or api_key query parameter".

Definition InvalidToken_inactive : Outcome :=
  json 401 "Invalid token" "Tenant not found or inactive".

Definition InvalidToken : Outcome :=
  json 401 "Invalid token" "JWT token is invalid or expired".

Definition InvalidCredential : Outcome :=
  json 401 "Invalid API key"
    "The provided API key is not valid or the tenant is inactive".

Definition CredentialExpired : Outcome :=
  json 401 "API key expired" "The provided API key has expired".

Definition QuotaExceeded (limit : option Z) (reset : option Z) : Outcome :=
  Respond {| status := 429; error := "Rate limit exceeded";
             message := "Rate limit of " +:+ Js.show_num limit
                        +:+ " requests per day exceeded";
             resetTime := reset |}.

Definition AuthenticationFailed : Outcome :=
  json 500 "Authentication failed"
    "Internal server error during authentication".

Definition is_QuotaExceeded (o : Outcome) : bool :=
  match o with
  | Respond r => status r =? 429
  | Next _ => false
  end.

(** ** The statements of the middleware *)

(** [SELECT * FROM tenants WHERE id = $1 AND is_active = true] *)
Definition select_tenant_by_id (tenantId : string) (db : DB) : list Tenant :=
  filter (λ t, Sql.holds (Sql.and3 (Sql.eq_str (Some (t_id t)) (Some tenantId))
                                   (Sql.eq_bool (t_is_active t) (Some true))))
         (tenants db).

(** A row of the join of [tenants] with [api_keys]: [t.*] and the three
    columns taken from the key, all [NULL] when no key joined. *)
Record KeyRow := {
  kr_tenant : Tenant;
  kr_permissions : option Permissions;
  kr_api_key_rate_limit : option Z;
  kr_expires_at : option Z
}.

Definition joined (t : Tenant) (ak : ApiKey) : KeyRow :=
  {| kr_tenant := t; kr_permissions := ak_permissions ak;
     kr_api_key_rate_limit := ak_rate_limit ak;
     kr_expires_at := ak_expires_at ak |}.

Definition unjoined (t : Tenant) : KeyRow :=
  {| kr_tenant := t; kr_permissions := None;
     kr_api_key_rate_limit := None; kr_expires_at := None |}.

(** [ON t.id = ak.tenant_id AND ak.api_key = $1] *)
Definition join_on (key : string) (t : Tenant) (ak : ApiKey) : bool :=
  Sql.holds (Sql.and3 (Sql.eq_str (Some (t_id t)) (ak_tenant_id ak))
                      (Sql.eq_str (Some (ak_api_key ak)) (Some key))).

(** [WHERE (t.api_key = $1 OR ak.api_key = $1) AND t.is_active = true],
    [ak_key] being [NULL] on a row without a joined key. *)
Definition key_where (key : string) (t : Tenant) (ak_key : option string)
  : bool :=
  Sql.holds (Sql.and3 (Sql.or3 (Sql.eq_str (Some (t_api_key t)) (Some key))
                               (Sql.eq_str ak_key (Some key)))
                      (Sql.eq_bool (t_is_active t) (Some true))).

(** The rows of one tenant in the [LEFT JOIN]. *)
Definition key_rows_of (key : string) (aks : list ApiKey) (t : Tenant)
  : list KeyRow :=
  match filter (λ ak, join_on key t ak) aks with
  | [] => if key_where key t None then [unjoined t] else []
  | m => joined t <$> filter (λ ak, key_where key t (Some (ak_api_key ak))) m
  end.

(** [SELECT t.*, ak.permissions, ak.rate_limit as api_key_rate_limit,
    ak.expires_at FROM tenants t LEFT JOIN api_keys ak ON ... WHERE ...] *)
Definition select_tenant_by_key (key : string) (db : DB) : list KeyRow :=
  mjoin (key_rows_of key (api_keys db) <$> tenants db).

(** [UPDATE api_keys SET last_used_at = CURRENT_TIMESTAMP WHERE api_key = $1] *)
Definition update_key_last_used (ts : Z) (key : string) (db : DB) : DB :=
  with_api_keys
    ((λ ak, if String.eqb (ak_api_key ak) key
            then {| ak_tenant_id := ak_tenant_id ak;
                    ak_key_name := ak_key_name ak;
                    ak_api_key := ak_api_key ak;
                    ak_permissions := ak_permissions ak;
                    ak_rate_limit := ak_rate_limit ak;
                    ak_is_active := ak_is_active ak;
                    ak_expires_at := ak_expires_at ak;
                    ak_last_used_at := Some ts |}
            else ak) <$> api_keys db)
    db.

(** [new Date().toISOString().split('T')[0]], read back as a timestamp:
    midnight UTC of the current day. *)
Definition DAY_MS : Z := 24 * 60 * 60 * 1000.

Definition today (ts : Z) : Z := ts - ts `mod` DAY_MS.

(** [SELECT COUNT( * ) FROM api_usage_logs
     WHERE tenant_id = $1 AND created_at >= $2] *)
Definition count_usage (tenantId : string) (since : Z) (db : DB) : Z :=
  Z.of_nat (length
    (filter (λ u, Sql.holds
               (Sql.and3 (Sql.eq_str (ul_tenant_id u) (Some tenantId))
                         (Sql.ge_ts (ul_created_at u) (Some since))))
            (api_usage_logs db))).

(** ** checkRateLimit *)

Record RateLimitResult := {
  allowed : bool;
  current : Z;
  limit : option Z;
  rl_resetTime : option Z
}.

Definition checkRateLimit (env : Env) (tenantId : string)
    (dailyLimit : option Z) : Async DB RateLimitResult :=
  try_catch
    (let today := today (now env) in
     let* currentCount :=
       pool_query env CountUsage
         (λ db, (count_usage tenantId today db, db)) in
     let allowed := Js.lt_num currentCount dailyLimit in
     ret {| allowed := allowed; current := currentCount;
            limit := dailyLimit;
            rl_resetTime := Some (now env + 24 * 60 * 60 * 1000) |})
    (ret {| allowed := true; current := 0; limit := dailyLimit;
            rl_resetTime := None |}).

(** ** logAPIUsage *)

Definition with_startTime (ts : Z) (req : Request) : Request :=
  {| headers := headers req; query := query req; method := method req;
     path := path req; ip := ip req; tenant := tenant req;
     authMethod := authMethod req; apiKey := apiKey req;
     startTime := Some ts |}.

Definition with_identity (t : TenantInfo) (m : AuthMethod)
    (key : option string) (req : Request) : Request :=
  {| headers := headers req; query := query req; method := method req;
     path := path req; ip := ip req; tenant := Some t;
     authMethod := Some m; apiKey := key;
     startTime := startTime req |}.

(** The row [logAPIUsage] inserts; [created_at] takes its default. *)
Definition usage_row (ts : Z) (tenantId : string) (req : Request) : UsageLog :=
  {| ul_tenant_id := Some tenantId;
     ul_request_method := method req;
     ul_request_path := path req;
     ul_request_headers :=
       [ ("content-type", headers req !! "content-type");
         ("user-agent", headers req !! "user-agent");
         ("x-forwarded-for", headers req !! "x-forwarded-for") ];
     ul_response_status := None;
     ul_ip_address := ip req;
     ul_user_agent := headers req !! "user-agent";
     ul_api_key_used :=
       match apiKey req with
       | Some k => String.substring 0 10 k +:+ "..."
       | None => "undefined..."
       end;
     ul_created_at := Some ts |}.

Definition insert_usage (u : UsageLog) (db : DB) : DB :=
  with_api_usage_logs (api_usage_logs db ++ [u]) db.

(** Returns the request with [startTime] set; a failure of the insert is
    logged and swallowed. *)
Definition logAPIUsage (env : Env) (req : Request) : Async DB Request :=
  let req := with_startTime (now env) req in
  try_catch
    (match tenant req with
     | None => throw
     | Some t =>
       let* _ := pool_query env InsertUsage
                   (λ db, (tt, insert_usage (usage_row (now env) (id t) req) db)) in
       ret req
     end)
    (ret req).

(** ** authenticateTenant *)

(** [req.headers['x-api-key'] ||
     req.headers['authorization']?.replace('Bearer ', '') ||
     req.query.api_key] *)
Definition credential (req : Request) : option string :=
  Js.or_str
    (Js.or_str (headers req !! "x-api-key")
               (Js.replace "Bearer " "" <$> headers req !! "authorization"))
    (query req !! "api_key").

(** [req.tenant = result.rows[0]] on the session-token path. *)
Definition tenant_of_row (t : Tenant) : TenantInfo :=
  {| id := t_id t; name := t_name t; subdomain := t_subdomain t;
     plan := t_plan t; max_endpoints := t_max_endpoints t;
     max_requests_per_day := t_max_requests_per_day t;
     permissions := None; rate_limit := None |}.

(** The effective limit of a resolved row:
    [tenant.api_key_rate_limit || tenant.max_requests_per_day]. *)
Definition effective_limit (row : KeyRow) : option Z :=
  Js.or_num (kr_api_key_rate_limit row)
            (t_max_requests_per_day (kr_tenant row)).

(** The object attached to the request on the key path. *)
Definition tenant_of_key_row (row : KeyRow) : TenantInfo :=
  let t := kr_tenant row in
  {| id := t_id t; name := t_name t; subdomain := t_subdomain t;
     plan := t_plan t; max_endpoints := t_max_endpoints t;
     max_requests_per_day := t_max_requests_per_day t;
     permissions := Some (default ∅ (kr_permissions row));
     rate_limit := effective_limit row |}.

(** [tenant.expires_at && new Date(tenant.expires_at) < new Date()] *)
Definition expired (env : Env) (row : KeyRow) : bool :=
  match kr_expires_at row with
  | Some e => e <? now env
  | None => false
  end.

(** The part of [authenticateTenant] that follows the resolution of an
    opaque key to [row]: the quota check, the identity attached to the
    request and the usage record. *)
Definition authenticateTenant_admit (env : Env) (req : Request)
    (key : string) (row : KeyRow) : Async DB Outcome :=
  let* rateLimitResult :=
    checkRateLimit env (t_id (kr_tenant row)) (effective_limit row) in
  if negb (allowed rateLimitResult)
  then ret (QuotaExceeded (limit rateLimitResult)
                          (rl_resetTime rateLimitResult))
  else
    let req := with_identity (tenant_of_key_row row) api_key (Some key) req in
    let* req := logAPIUsage env req in
    ret (Next req).

Definition authenticateTenant (env : Env) (req : Request)
  : Async DB Outcome :=
  try_catch
    (let cred := credential req in
     if negb (Js.truthy_str cred) then ret Unauthenticated
     else
       let key := default "" cred in
       if String.prefix "eyJ" key then
         try_catch
           (match jwt_verify env key with
            | None => throw
            | Some tenantId =>
              let* rows := pool_query env SelectTenantById
                             (λ db, (select_tenant_by_id tenantId db, db)) in
              match rows with
              | [] => ret InvalidToken_inactive
              | row :: _ =>
                ret (Next (with_identity (tenant_of_row row) jwt
                                         (apiKey req) req))
              end
            end)
           (ret InvalidToken)
       else
         let* rows := pool_query env SelectTenantByKey
                        (λ db, (select_tenant_by_key key db, db)) in
         match rows with
         | [] => ret InvalidCredential
         | row :: _ =>
           if expired env row then ret CredentialExpired
           else
             let* _ :=
               if Js.truthy_num (kr_api_key_rate_limit row)
               then pool_query env UpdateKeyLastUsed
                      (λ db, (tt, update_key_last_used (now env) key db))
               else ret tt in
             authenticateTenant_admit env req key row
         end)
    (ret AuthenticationFailed).

(** ** requirePermission *)

Definition PermissionDenied (permission : string) : Outcome :=
  json 403 "Permission denied"
    ("This action requires '" +:+ permission
     +:+ "' permission or enterprise plan").

Definition NotAuthenticated : Outcome :=
  json 401 "Authentication required"
    "Must be authenticated to access this resource".

(** [permissions[permission]] is truthy, [permissions] being
    [req.tenant.permissions || {}]. *)
Definition grants (t : TenantInfo) (permission : string) : bool :=
  Js.truthy (Js.get (default ∅ (permissions t)) permission).

Definition requirePermission (permission : string) (req : Request)
  : Outcome :=
  match tenant req with
  | None => NotAuthenticated
  | Some t =>
    if negb (grants t permission)
       && negb (bool_decide (plan t = Some enterprise))
    then PermissionDenied permission
    else Next req
  end.

(** * The real-time coordinator (setupWebSocket) *)

(** ** Sockets and emitted events *)

Record Socket := {
  socket_id : string;               (* socket.id *)
  connected : bool;                 (* socket.connected *)
  rooms : gset string;              (* socket.rooms *)
  tenantId : option string;         (* socket.tenantId *)
  socket_tenant : option Tenant     (* socket.tenant *)
}.

Inductive Event :=
| EvJoined (tenantId : string) (tenant : Tenant)    (* 'joined' *)
| EvError (message : string)                        (* 'error' *)
| EvQueryResult                                     (* 'query-result' *)
| EvQueryExecuted (executedBy query : string) (timestamp : Z)
| EvPong.                                           (* 'pong' *)

Inductive Emit :=
| ToSocket (e : Event)                (* socket.emit *)
| ToRoom (room : string) (e : Event). (* socket.to(room).emit *)

Record Ws := {
  sock : Socket;
  store : DB;
  out : list Emit
}.

Definition emit (e : Emit) : Async Ws unit :=
  modify (λ w, {| sock := sock w; store := store w; out := out w ++ [e] |}).

Definition set_sock (f : Socket → Socket) : Async Ws unit :=
  modify (λ w, {| sock := f (sock w); store := store w; out := out w |}).

(** [await this.pool.query(...)] from a socket handler. *)
Definition ws_query {A} (m : Async DB A) : Async Ws A :=
  λ w, let '(r, db) := m (store w) in
       (r, {| sock := sock w; store := db; out := out w |}).

Definition room_of (tenantId : string) : string := "tenant-" +:+ tenantId.

(** The three states of a connection, read off the socket: a tenant is
    bound when [socket.tenantId] is truthy. *)
Inductive ConnState := Connected | Joined | Disconnected.

Definition state_of (s : Socket) : ConnState :=
  if negb (connected s) then Disconnected
  else if Js.truthy_str (tenantId s) then Joined
  else Connected.

(** ** The statements of the coordinator *)

(** [SELECT * FROM tenants
     WHERE id = $1 AND api_key = $2 AND is_active = true] *)
Definition select_tenant_for_join (tid key : string) (db : DB) : list Tenant :=
  filter (λ t, Sql.holds
            (Sql.and3 (Sql.and3 (Sql.eq_str (Some (t_id t)) (Some tid))
                                (Sql.eq_str (Some (t_api_key t)) (Some key)))
                      (Sql.eq_bool (t_is_active t) (Some true))))
         (tenants db).

Definition refresh (ts : Z) (r : Connection) : Connection :=
  {| rc_tenant_id := rc_tenant_id r;
     rc_connection_id := rc_connection_id r;
     rc_socket_id := rc_socket_id r;
     rc_user_info := rc_user_info r;
     rc_connected_at := rc_connected_at r;
     rc_last_ping_at := Some ts;
     rc_is_active := Some true |}.

(** [INSERT INTO realtime_connections
       (tenant_id, connection_id, socket_id, user_info)
     VALUES ($1, $2, $3, $4)
     ON CONFLICT (connection_id)
     DO UPDATE SET last_ping_at = CURRENT_TIMESTAMP, is_active = true] *)
Definition upsert_connection (ts : Z) (tid cid sid : string)
    (info : list (string * Z)) (db : DB) : DB :=
  let rows := realtime_connections db in
  if bool_decide (cid ∈ rc_connection_id <$> rows)
  then with_realtime_connections
         ((λ r, if String.eqb (rc_connection_id r) cid
                then refresh ts r else r) <$> rows) db
  else with_realtime_connections
         (rows ++ [ {| rc_tenant_id := Some tid;
                       rc_connection_id := cid;
                       rc_socket_id := sid;
                       rc_user_info := info;
                       rc_connected_at := Some ts;
                       rc_last_ping_at := Some ts;
                       rc_is_active := Some true |} ]) db.

(** [UPDATE realtime_connections SET last_ping_at = CURRENT_TIMESTAMP
     WHERE socket_id = $1] *)
Definition update_ping (ts : Z) (sid : string) (db : DB) : DB :=
  with_realtime_connections
    ((λ r, if String.eqb (rc_socket_id r) sid
           then {| rc_tenant_id := rc_tenant_id r;
                   rc_connection_id := rc_connection_id r;
                   rc_socket_id := rc_socket_id r;
                   rc_user_info := rc_user_info r;
                   rc_connected_at := rc_connected_at r;
                   rc_last_ping_at := Some ts;
                   rc_is_active := rc_is_active r |}
           else r) <$> realtime_connections db) db.

(** [UPDATE realtime_connections SET is_active = false
     WHERE socket_id = $1] *)
Definition update_inactive (sid : string) (db : DB) : DB :=
  with_realtime_connections
    ((λ r, if String.eqb (rc_socket_id r) sid
           then {| rc_tenant_id := rc_tenant_id r;
                   rc_connection_id := rc_connection_id r;
                   rc_socket_id := rc_socket_id r;
                   rc_user_info := rc_user_info r;
                   rc_connected_at := rc_connected_at r;
                   rc_last_ping_at := rc_last_ping_at r;
                   rc_is_active := Some false |}
           else r) <$> realtime_connections db) db.

Definition STALE_MS : Z := 10 * 60 * 1000.

(** [last_ping_at < NOW() - INTERVAL '10 minutes' OR is_active = false] *)
Definition stale (ts : Z) (r : Connection) : bool :=
  Sql.holds (Sql.or3 (Sql.lt_ts (rc_last_ping_at r) (Some (ts - STALE_MS)))
                     (Sql.eq_bool (rc_is_active r) (Some false))).

(** [DELETE FROM realtime_connections WHERE ...] *)
Definition delete_stale (ts : Z) (db : DB) : DB :=
  with_realtime_connections
    (filter (λ r, stale ts r = false) (realtime_connections db)) db.

(** ** The handlers *)

(** [socket.on('join-tenant', async (data) => ...)] with
    [data = { tenantId, apiKey }] *)
Definition on_join_tenant (env : Env) (tid key : string) : Async Ws unit :=
  try_catch
    (let* result :=
       ws_query (pool_query env SelectTenantForJoin
                   (λ db, (select_tenant_for_join tid key db, db))) in
     match result with
     | row :: _ =>
       let* _ := set_sock (λ s,
                   {| socket_id := socket_id s; connected := connected s;
                      rooms := {[ room_of tid ]} ∪ rooms s;
                      tenantId := Some tid;
                      socket_tenant := Some row |}) in
       let* w := get_state in
       let* _ := ws_query (pool_query env UpsertConnection
                   (λ db, (tt, upsert_connection (now env) tid
                                 (socket_id (sock w)) (socket_id (sock w))
                                 [("connectedAt", now env)] db))) in
       emit (ToSocket (EvJoined tid row))
     | [] => emit (ToSocket (EvError "Invalid tenant credentials"))
     end)
    (emit (ToSocket (EvError "Connection failed"))).

(** [socket.on('execute-query', async (data) => ...)]; the stub
    [executeQueryRealtime] always resolves. *)
Definition on_execute_query (env : Env) (query : string) : Async Ws unit :=
  let* w := get_state in
  if negb (Js.truthy_str (tenantId (sock w)))
  then emit (ToSocket (EvError "Not authenticated"))
  else
    let* _ := emit (ToSocket EvQueryResult) in
    emit (ToRoom (room_of (default "" (tenantId (sock w))))
                 (EvQueryExecuted (socket_id (sock w)) query (now env))).

(** [socket.on('ping', ...)]: the update is not awaited, its failure is
    logged. *)
Definition on_ping (env : Env) : Async Ws unit :=
  let* _ := emit (ToSocket EvPong) in
  let* w := get_state in
  if Js.truthy_str (tenantId (sock w))
  then try_catch
         (ws_query (pool_query env UpdatePing
            (λ db, (tt, update_ping (now env) (socket_id (sock w)) db))))
         (ret tt)
  else ret tt.

(** [socket.on('disconnect', ...)] *)
Definition on_disconnect (env : Env) : Async Ws unit :=
  let* w := get_state in
  try_catch
    (ws_query (pool_query env UpdateInactive
       (λ db, (tt, update_inactive (socket_id (sock w)) db))))
    (ret tt).

(** The body of the [setInterval] callback. *)
Definition cleanup_inactive_connections (env : Env) : Async DB unit :=
  try_catch
    (pool_query env DeleteStale (λ db, (tt, delete_stale (now env) db)))
    (ret tt).

(** * Observations on runs *)

(** The outcome of a run and the telling parts of it. *)
Definition outcome {S} (r : Res Outcome * S) : option Outcome :=
  match r with (Ok o, _) => Some o | (Throw, _) => None end.

Definition admitted {S} (r : Res Outcome * S) : bool :=
  match r with (Ok (Next _), _) => true | _ => false end.




(** A tenant with this id and primary key exists and is active: what the
    lookup of 'join-tenant' asks for. *)
Definition valid_tenant (db : DB) (tid key : string) : Prop :=
  ∃ t, t ∈ tenants db ∧ t_id t = tid ∧ t_api_key t = key
       ∧ t_is_active t = Some true.

(** The rows of [realtime_connections] with a given connection id. *)
Definition connections_of (cid : string) (db : DB) : list Connection :=
  filter (λ r, rc_connection_id r = cid) (realtime_connections db).

(** * The rest of the middleware and of the coordinator *)

(** ** requirePlan *)

Definition planHierarchy : gmap string Js.value :=
  {[ "basic" := Js.JNum 1; "pro" := Js.JNum 2; "enterprise" := Js.JNum 3 ]}.

(** The property name a plan column gives: its text, or ["null"]. *)
Definition plan_key (p : option Plan) : string :=
  match p with
  | Some basic => "basic"
  | Some pro => "pro"
  | Some enterprise => "enterprise"
  | None => "null"
  end.

(** [planHierarchy[k] || 0]: a number, or a member inherited from
    [Object.prototype]. *)
Definition plan_level (k : string) : Js.value :=
  let v := Js.get planHierarchy k in
  if Js.truthy v then v else Js.JNum 0.

(** [a < b] on two such levels: an inherited member converts to [NaN],
    and a comparison with [NaN] is false. *)
Definition lt_level (a b : Js.value) : bool :=
  match a, b with
  | Js.JNum x, Js.JNum y => x <? y
  | _, _ => false
  end.

Definition PlanUpgradeRequired (requiredPlan : string)
    (currentPlan : option Plan) : Outcome :=
  json 403 "Plan upgrade required"
    ("This feature requires " +:+ requiredPlan
     +:+ " plan or higher. Current plan: " +:+ plan_key currentPlan).

Definition requirePlan (requiredPlan : string) (req : Request) : Outcome :=
  match tenant req with
  | None => NotAuthenticated
  | Some t =>
    let userPlanLevel := plan_level (plan_key (plan t)) in
    let requiredPlanLevel := plan_level requiredPlan in
    if lt_level userPlanLevel requiredPlanLevel
    then PlanUpgradeRequired requiredPlan (plan t)
    else Next req
  end.

(** The order basic < pro < enterprise, a missing plan below all. *)
Definition plan_rank (p : option Plan) : Z :=
  match p with
  | Some basic => 1
  | Some pro => 2
  | Some enterprise => 3
  | None => 0
  end.

(** ** Requests in a row *)

(** The store after the requests of [l] went through
    [authenticateTenant] one after the other, each in its environment. *)
Definition serve (l : list (Env * Request)) (db : DB) : DB :=
  foldl (λ db er, snd (authenticateTenant er.1 er.2 db)) db l.

(** The requests of [l] that were let through. *)
Fixpoint served (l : list (Env * Request)) (db : DB) : nat :=
  match l with
  | [] => 0%nat
  | er :: l =>
    let r := authenticateTenant er.1 er.2 db in
    ((if admitted r then 1 else 0) + served l (snd r))%nat
  end.

(** ** Events on a socket, interleaved with the sweep *)

Inductive Msg :=
| MJoin (tid key : string)     (* 'join-tenant' *)
| MExecute (query : string)    (* 'execute-query' *)
| MPing                        (* 'ping' *)
| MDisconnect.                 (* 'disconnect' *)

Definition handle (env : Env) (m : Msg) : Async Ws unit :=
  match m with
  | MJoin tid key => on_join_tenant env tid key
  | MExecute query => on_execute_query env query
  | MPing => on_ping env
  | MDisconnect => on_disconnect env
  end.

Inductive Step :=
| OnSocket (env : Env) (m : Msg)
| Sweep (env : Env).

Definition step (s : Step) (w : Ws) : Ws :=
  match s with
  | OnSocket env m => snd (handle env m w)
  | Sweep env =>
    {| sock := sock w;
       store := snd (cleanup_inactive_connections env (store w));
       out := out w |}
  end.

Definition run_steps (l : list Step) (w : Ws) : Ws :=
  foldl (λ w s, step s w) w l.

(** A row that belongs to another connection than the socket [sid]. *)
Definition foreign (sid : string) (r : Connection) : Prop :=
  rc_connection_id r ≠ sid ∧ rc_socket_id r ≠ sid.

(** The rows of [realtime_connections] written for a socket id. *)
Definition rows_of_socket (sid : string) (db : DB) : list Connection :=
  filter (λ r, rc_socket_id r = sid) (realtime_connections db).

(** * The specification's words *)

(** These definitions follow the specification, not the code; the
    theorems compare the code with them. *)

(** [d] is the start of the UTC calendar day that holds [ts]: a whole
    number of days after the epoch, at most [ts] and less than twenty-four
    hours before it. *)
Definition utc_midnight (d ts : Z) : Prop :=
  d `mod` 86400000 = 0 ∧ d ≤ ts < d + 86400000.

(** A usage record that counts for tenant [tid] from the instant [d] on:
    it belongs to that tenant and was created at [d] or later. *)
Definition counts_for (tid : string) (d : Z) (u : UsageLog) : Prop :=
  ul_tenant_id u = Some tid
  ∧ match ul_created_at u with Some c => d ≤ c | None => False end.

Global Instance counts_for_dec (tid : string) (d : Z) (u : UsageLog) :
  Decision (counts_for tid d u).
Proof. unfold counts_for. destruct (ul_created_at u); apply _. Defined.

Definition usage_count_spec (tid : string) (d : Z) (db : DB) : Z :=
  Z.of_nat (length (filter (counts_for tid d) (api_usage_logs db))).

(** The entries of a permission set that grant nothing: false, null, zero
    and the empty string. *)
Definition no_grant (v : Js.value) : Prop :=
  v = Js.JBool false ∨ v = Js.JNull ∨ v = Js.JUndefined ∨ v = Js.JNum 0
  ∨ v = Js.JStr "".

(** Every occurrence of [pat] in [h] starts at position [length a] or
    later, and one starts there: [h] is [a], then [pat], then [b]. *)
Definition first_occurrence (pat a b h : string) : Prop :=
  h = a +:+ pat +:+ b
  ∧ ∀ a' b', h = a' +:+ pat +:+ b' → (String.length a ≤ String.length a')%nat.

Definition absent (pat h : string) : Prop :=
  ∀ a' b', h ≠ a' +:+ pat +:+ b'.

(** [h] with its first occurrence of [pat] removed; [h] itself when [pat]
    does not occur in it. *)
Definition without_first (pat h s : string) : Prop :=
  (∃ a b, first_occurrence pat a b h ∧ s = a +:+ b) ∨ (absent pat h ∧ s = h).

(** A header or a query parameter that is missing or empty. *)
Definition missing_or_empty (o : option string) : Prop :=
  o = None ∨ o = Some "".

(** * Sample data for the scenarios *)

Module Sample.

(** 2023-11-14T22:13:20Z *)
Definition t0 : Z := 1700000000000.

Definition minute : Z := 60 * 1000.

(** A tenant on the basic plan with a daily quota of two requests. *)
Definition T : Tenant :=
  {| t_id := "tenant-T"; t_name := "T"; t_subdomain := "t";
     t_api_key := "pk_T"; t_plan := Some basic;
     t_max_endpoints := Some 10; t_max_requests_per_day := Some 2;
     t_is_active := Some true |}.

Definition secondary (key : string) (perms : Permissions)
    (lim : option Z) (active : option bool) (expires : option Z) : ApiKey :=
  {| ak_tenant_id := Some "tenant-T"; ak_key_name := "secondary";
     ak_api_key := key; ak_permissions := Some perms;
     ak_rate_limit := lim; ak_is_active := active;
     ak_expires_at := expires; ak_last_used_at := None |}.

Definition can_read : Permissions := {[ "read" := Js.JBool true ]}.

(** A live key, a key that expired a minute ago, and a deactivated key. *)
Definition sk_live : ApiKey :=
  secondary "sk_live" can_read (Some 100) (Some true) None.
Definition sk_old : ApiKey :=
  secondary "sk_old" can_read (Some 100) (Some true) (Some (t0 - minute)).
Definition sk_off : ApiKey :=
  secondary "sk_off" can_read (Some 5) (Some false) (Some (t0 + minute)).

Definition used (ts : Z) : UsageLog :=
  {| ul_tenant_id := Some "tenant-T"; ul_request_method := "GET";
     ul_request_path := "/"; ul_request_headers := [];
     ul_response_status := Some 200; ul_ip_address := "127.0.0.1";
     ul_user_agent := None; ul_api_key_used := "pk_T...";
     ul_created_at := Some ts |}.

Definition db0 : DB :=
  {| tenants := [T]; api_keys := [sk_live; sk_old; sk_off];
     api_usage_logs := []; realtime_connections := [] |}.

(** The same store once two requests of [T] were recorded today. *)
Definition db_full : DB :=
  with_api_usage_logs [used (t0 - 2 * minute); used (t0 - minute)] db0.

(** The only session token that verifies, for tenant [T]. *)
Definition token : string := "eyJhbGciOiJIUzI1NiJ9.T.sig".

Definition env_with (ts : Z) (down : Stmt → bool) : Env :=
  {| now := ts;
     jwt_verify := λ s, if String.eqb s token then Some "tenant-T" else None;
     down := down |}.

Definition env0 : Env := env_with t0 (λ _, false).

Definition only (s : Stmt) : Stmt → bool :=
  λ s', match s, s' with
        | UpdateKeyLastUsed, UpdateKeyLastUsed
        | CountUsage, CountUsage
        | UpsertConnection, UpsertConnection
        | DeleteStale, DeleteStale => true
        | _, _ => false
        end.

(** A request carrying [cred] in the [X-API-Key] header. *)
Definition request (cred : string) : Request :=
  {| headers := {[ "x-api-key" := cred ]}; query := ∅;
     method := "GET"; path := "/api/tenant/endpoints";
     ip := "127.0.0.1"; tenant := None; authMethod := None;
     apiKey := None; startTime := None |}.

Definition fresh_socket (sid : string) : Socket :=
  {| socket_id := sid; connected := true; rooms := {[ sid ]};
     tenantId := None; socket_tenant := None |}.

Definition ws0 (sid : string) (db : DB) : Ws :=
  {| sock := fresh_socket sid; store := db; out := [] |}.

Definition conn (cid : string) (ping : Z) (active : bool) : Connection :=
  {| rc_tenant_id := Some "tenant-T"; rc_connection_id := cid;
     rc_socket_id := cid; rc_user_info := [];
     rc_connected_at := Some (t0 - 60 * minute);
     rc_last_ping_at := Some ping; rc_is_active := Some active |}.

End Sample.

(** * Properties *)

(** ** Running computations *)

Ltac run :=
  unfold bind, ret, throw, try_catch, get_state, modify, pool_query,
         ws_query, emit, set_sock in *; cbn beta iota.

(** Conditions of the statements, read as booleans. *)
Lemma holds_and3 (a b : Sql.tv) :
  Sql.holds (Sql.and3 a b) = Sql.holds a && Sql.holds b.
Proof. by destruct a as [[]|], b as [[]|]. Qed.

Lemma holds_or3 (a b : Sql.tv) :
  Sql.holds (Sql.or3 a b) = Sql.holds a || Sql.holds b.
Proof. by destruct a as [[]|], b as [[]|]. Qed.

Lemma holds_eq_str (a : option string) (b : string) :
  Sql.holds (Sql.eq_str a (Some b)) = true ↔ a = Some b.
Proof.
  destruct a as [a|]; cbn; [|done].
  destruct (String.eqb_spec a b) as [->|Hne]; cbn; [done|].
  split; [done|]. by intros [= ->].
Qed.

Lemma holds_is_true (a : option bool) :
  Sql.holds (Sql.eq_bool a (Some true)) = true ↔ a = Some true.
Proof. by destruct a as [[]|]. Qed.

Lemma checkRateLimit_up (env : Env) (tenantId : string) (lim : option Z)
    (db : DB) :
  down env CountUsage = false →
  checkRateLimit env tenantId lim db =
    (Ok {| allowed := Js.lt_num (count_usage tenantId (today (now env)) db) lim;
           current := count_usage tenantId (today (now env)) db;
           limit := lim;
           rl_resetTime := Some (now env + DAY_MS) |}, db).
Proof.
  intros Hup. unfold checkRateLimit. run. rewrite Hup. reflexivity.
Qed.

Lemma checkRateLimit_down (env : Env) (tenantId : string) (lim : option Z)
    (db : DB) :
  down env CountUsage = true →
  checkRateLimit env tenantId lim db =
    (Ok {| allowed := true; current := 0; limit := lim;
           rl_resetTime := None |}, db).
Proof.
  intros Hdown. unfold checkRateLimit. run. rewrite Hdown. reflexivity.
Qed.

(** [logAPIUsage] never throws, whatever the store does. *)
Lemma logAPIUsage_returns (env : Env) (req : Request) (db : DB) :
  ∃ db', logAPIUsage env req db = (Ok (with_startTime (now env) req), db').
Proof.
  unfold logAPIUsage. run.
  destruct (tenant (with_startTime (now env) req)); [|eauto].
  destruct (down env InsertUsage); eauto.
Qed.

(** ** Quota enforcement *)

(** The lower bound the code sends is midnight UTC of the current day. *)
Lemma today_utc_midnight (d ts : Z) : utc_midnight d ts → today ts = d.
Proof.
  unfold utc_midnight, today, DAY_MS. intros [Hmod Hday].
  Z.div_mod_to_equations. lia.
Qed.

(** The count query counts the records of the tenant created at the
    bound or later, and no other. *)
Lemma count_usage_spec (tid : string) (d : Z) (db : DB) :
  count_usage tid d db = usage_count_spec tid d db.
Proof.
  unfold count_usage, usage_count_spec. do 2 f_equal.
  apply list_filter_iff. intros u. unfold counts_for.
  rewrite Is_true_true, holds_and3, andb_true_iff, holds_eq_str.
  destruct (ul_created_at u) as [c|]; cbn.
  - destruct (Z.leb_spec d c); intuition (done || lia).
  - intuition done.
Qed.

(** C2. Once a key resolved to a row with effective daily limit [L] and
    the count query answers, [checkRateLimit] allows the request exactly
    when [n] is below [L], where [n] is the number of usage records of
    that tenant created at or after [d], the start of the current UTC
    calendar day; [authenticateTenant] then goes on to attach the
    identity, and otherwise answers 429 with the limit [L] in its
    message. For the tenant with limit 2, three requests in a row observe
    the counts 0, 1 and 2: the first two pass, the third is answered 429
    with limit 2. *)
Theorem quota_admission (env : Env) (db : DB) (req : Request) (key : string)
    (row : KeyRow) (L d : Z) :
  down env CountUsage = false →
  effective_limit row = Some L →
  utc_midnight d (now env) →
  let n := usage_count_spec (t_id (kr_tenant row)) d db in
  (∃ r, checkRateLimit env (t_id (kr_tenant row)) (Some L) db = (Ok r, db)
        ∧ (allowed r = true ↔ n < L) ∧ current r = n ∧ limit r = Some L)
  ∧ (n < L →
       ∃ req' db', authenticateTenant_admit env req key row db
                   = (Ok (Next req'), db')
                   ∧ tenant req' = Some (tenant_of_key_row row))
  ∧ (L ≤ n →
       authenticateTenant_admit env req key row db
       = (Ok (QuotaExceeded (Some L) (Some (now env + DAY_MS))), db))
  ∧ (let count := usage_count_spec "tenant-T" 1699920000000 in
     let r1 := authenticateTenant Sample.env0 (Sample.request "pk_T")
                 Sample.db0 in
     let r2 := authenticateTenant Sample.env0 (Sample.request "pk_T")
                 (snd r1) in
     let r3 := authenticateTenant Sample.env0 (Sample.request "pk_T")
                 (snd r2) in
     utc_midnight 1699920000000 (now Sample.env0)
     ∧ count Sample.db0 = 0 ∧ admitted r1 = true
     ∧ count (snd r1) = 1 ∧ admitted r2 = true
     ∧ count (snd r2) = 2
     ∧ outcome r3 = Some (QuotaExceeded (Some 2)
                            (Some (Sample.t0 + DAY_MS)))
     ∧ message (match outcome r3 with
                | Some (Respond r) => r
                | _ => {| status := 0; error := ""; message := "";
                          resetTime := None |}
                end) = "Rate limit of 2 requests per day exceeded").
Proof.
  intros Hup HL Hday n.
  assert (count_usage (t_id (kr_tenant row)) (today (now env)) db = n)
    as Hn.
  { rewrite (today_utc_midnight d) by done. apply count_usage_spec. }
  split; [|split; [|split]].
  - eexists. split; [apply checkRateLimit_up, Hup|]. cbn. rewrite Hn.
    split; [apply Z.ltb_lt|done].
  - intros Hlt. unfold authenticateTenant_admit.
    unfold bind at 1. rewrite checkRateLimit_up, HL by done. cbn.
    rewrite Hn. apply Z.ltb_lt in Hlt. rewrite Hlt. cbn.
    unfold bind.
    destruct (logAPIUsage_returns env
      (with_identity (tenant_of_key_row row) api_key (Some key) req) db)
      as [db' ->].
    eexists _, _. split; reflexivity.
  - intros Hge. unfold authenticateTenant_admit.
    unfold bind at 1. rewrite checkRateLimit_up, HL by done. cbn.
    rewrite Hn. apply Z.ltb_ge in Hge. rewrite Hge. reflexivity.
  - vm_compute. repeat split; reflexivity || discriminate.
Qed.

(** Where [authenticateTenant] can answer 429 at all: only from its last
    part, so only when [checkRateLimit] disallows. *)
Lemma authenticateTenant_admit_down (env : Env) (req : Request)
    (key : string) (row : KeyRow) (db : DB) :
  down env CountUsage = true →
  ∃ req' db', authenticateTenant_admit env req key row db
              = (Ok (Next req'), db').
Proof.
  intros Hdown. unfold authenticateTenant_admit.
  unfold bind at 1. rewrite checkRateLimit_down by done. cbn.
  unfold bind.
  destruct (logAPIUsage_returns env
    (with_identity (tenant_of_key_row row) api_key (Some key) req) db)
    as [db' ->].
  eauto.
Qed.

(** C3. When the count query of [checkRateLimit] fails, the result is
    [allowed = true], and [authenticateTenant] never answers 429. *)
Theorem quota_fail_open (env : Env) :
  down env CountUsage = true →
  (∀ tenantId lim db,
     ∃ r, checkRateLimit env tenantId lim db = (Ok r, db)
          ∧ allowed r = true)
  ∧ (∀ req db,
       ∃ o db', authenticateTenant env req db = (Ok o, db')
                ∧ is_QuotaExceeded o = false).
Proof.
  intros Hdown. split.
  - intros tenantId lim db. eexists.
    split; [by apply checkRateLimit_down|reflexivity].
  - intros req db. unfold authenticateTenant.
    unfold try_catch at 1.
    destruct (Js.truthy_str (credential req)); cbn [negb];
      [|run; eauto].
    destruct (String.prefix "eyJ" (default "" (credential req))).
    + run. destruct (jwt_verify env _); [|eauto].
      destruct (down env SelectTenantById); [eauto|].
      destruct (select_tenant_by_id _ db); eauto.
    + unfold bind at 1, pool_query at 1.
      destruct (down env SelectTenantByKey); [run; eauto|].
      destruct (select_tenant_by_key _ db) as [|row rows]; [run; eauto|].
      destruct (expired env row); [run; eauto|].
      unfold bind at 1.
      destruct (Js.truthy_num (kr_api_key_rate_limit row)).
      * unfold pool_query at 1.
        destruct (down env UpdateKeyLastUsed); [run; eauto|].
        destruct (authenticateTenant_admit_down env req
                    (default "" (credential req)) row
                    (update_key_last_used (now env)
                       (default "" (credential req)) db) Hdown)
          as (req' & db' & ->).
        eauto.
      * unfold ret at 1.
        destruct (authenticateTenant_admit_down env req
                    (default "" (credential req)) row db Hdown)
          as (req' & db' & ->).
        eauto.
Qed.

Lemma quota_fail_open_witness :
  down (Sample.env_with Sample.t0 (Sample.only CountUsage)) CountUsage = true
  ∧ ∃ o db',
      authenticateTenant (Sample.env_with Sample.t0 (Sample.only CountUsage))
        (Sample.request "pk_T") Sample.db_full = (Ok o, db')
      ∧ is_QuotaExceeded o = false.
Proof.
  split; [reflexivity|].
  apply (quota_fail_open (Sample.env_with Sample.t0 (Sample.only CountUsage))).
  reflexivity.
Defined.

Lemma quota_admission_witness :
  down Sample.env0 CountUsage = false
  ∧ effective_limit (unjoined Sample.T) = Some 2
  ∧ utc_midnight 1699920000000 (now Sample.env0)
  ∧ usage_count_spec "tenant-T" 1699920000000 Sample.db_full = 2
  ∧ authenticateTenant_admit Sample.env0 (Sample.request "pk_T") "pk_T"
      (unjoined Sample.T) Sample.db_full
    = (Ok (QuotaExceeded (Some 2) (Some (now Sample.env0 + DAY_MS))),
       Sample.db_full).
Proof.
  assert (utc_midnight 1699920000000 (now Sample.env0)) as Hday.
  { split; [reflexivity|]. split; by vm_compute. }
  split; [reflexivity|]. split; [reflexivity|]. split; [exact Hday|].
  split; [reflexivity|].
  destruct (quota_admission Sample.env0 Sample.db_full
              (Sample.request "pk_T") "pk_T" (unjoined Sample.T) 2
              1699920000000 eq_refl eq_refl Hday) as (_ & _ & Hreject & _).
  apply Hreject. vm_compute. discriminate.
Defined.

(** ** The session-token path *)

(** A credential with the token prefix never reaches [checkRateLimit] or
    [logAPIUsage]: the store is left as it was and the answer does not
    depend on the usage records. *)
Lemma session_token_path (env : Env) (req : Request) (db : DB) (cred : string) :
  credential req = Some cred →
  String.prefix "eyJ" cred = true →
  ∃ o, authenticateTenant env req db = (Ok o, db)
       ∧ is_QuotaExceeded o = false
       ∧ ∀ logs, authenticateTenant env req (with_api_usage_logs logs db)
                 = (Ok o, with_api_usage_logs logs db).
Proof.
  intros Hcred Hpre. unfold authenticateTenant. rewrite Hcred.
  change (default "" (Some cred)) with cred.
  assert (Js.truthy_str (Some cred) = true) as ->.
  { destruct cred; [discriminate Hpre|reflexivity]. }
  rewrite Hpre. cbn [negb]. run.
  destruct (jwt_verify env cred) as [tid|]; [|eauto].
  destruct (down env SelectTenantById); [eauto|].
  change (select_tenant_by_id tid (with_api_usage_logs _ db))
    with (select_tenant_by_id tid db).
  destruct (select_tenant_by_id tid db); eauto.
Qed.

(** C1, at a request the code lets through. Tenant [T] has a daily quota
    of 2 and two usage records today. With its primary key the request is
    answered 429; with its session token [authenticateTenant] calls
    [next()]: the quota is not evaluated, no effective limit is attached
    and no usage is recorded. *)
Theorem session_token_skips_quota :
  t_max_requests_per_day Sample.T = Some 2
  ∧ count_usage "tenant-T" (today Sample.t0) Sample.db_full = 2
  ∧ authenticateTenant Sample.env0 (Sample.request "pk_T") Sample.db_full
    = (Ok (QuotaExceeded (Some 2) (Some (Sample.t0 + DAY_MS))),
       Sample.db_full)
  ∧ authenticateTenant Sample.env0 (Sample.request Sample.token)
      Sample.db_full
    = (Ok (Next {| headers := headers (Sample.request Sample.token);
                   query := ∅; method := "GET";
                   path := "/api/tenant/endpoints"; ip := "127.0.0.1";
                   tenant := Some (tenant_of_row Sample.T);
                   authMethod := Some jwt; apiKey := None;
                   startTime := None |}),
       Sample.db_full)
  ∧ rate_limit (tenant_of_row Sample.T) = None.
Proof.
  repeat split; vm_compute; reflexivity.
Qed.

(** ** The last-used timestamp of a secondary key *)

(** C6, at a request the code fails. The key [sk_live] of tenant [T] is
    valid, unexpired and far below its limit; the request is admitted when
    the store answers, and answered 500 when only the update of
    [last_used_at] fails: the update is awaited inside the [try] of
    [authenticateTenant]. *)
Theorem last_used_failure_fails_request :
  admitted (authenticateTenant Sample.env0 (Sample.request "sk_live")
              Sample.db0) = true
  ∧ authenticateTenant
      (Sample.env_with Sample.t0 (Sample.only UpdateKeyLastUsed))
      (Sample.request "sk_live") Sample.db0
    = (Ok AuthenticationFailed, Sample.db0).
Proof.
  split; vm_compute; reflexivity.
Qed.

(** ** The capability gate *)

(** Outside the names every object inherits, a capability is granted
    exactly when the permission set has a truthy entry for it. *)
Lemma grants_own (t : TenantInfo) (permission : string) :
  permission ∉ Js.Object_prototype →
  grants t permission = true
  ↔ ∃ v, default ∅ (permissions t) !! permission = Some v
         ∧ Js.truthy v = true.
Proof.
  intros Hown. unfold grants, Js.get.
  destruct (default ∅ (permissions t) !! permission) as [v|].
  - split; [eauto|]. by intros (? & [= <-] & ?).
  - rewrite bool_decide_eq_false_2 by done. cbn.
    split; [done|]. by intros (? & ? & ?).
Qed.

(** C5, as amended. [requirePermission] lets an enterprise tenant
    through for every capability name, whatever its permission set holds.
    Any other tenant is answered 403 "Permission denied" when its
    permission set has under that name an entry that grants nothing
    (false, null, zero, the empty string), or has no entry and the name
    is not one of the members that every object inherits. *)
Theorem capability_gate (req : Request) (t : TenantInfo)
    (permission : string) :
  tenant req = Some t →
  (plan t = Some enterprise → requirePermission permission req = Next req)
  ∧ (plan t ≠ Some enterprise →
     match default ∅ (permissions t) !! permission with
     | Some v => no_grant v
     | None => permission ∉ Js.Object_prototype
     end →
     requirePermission permission req = PermissionDenied permission).
Proof.
  intros Ht. unfold requirePermission. rewrite Ht. split.
  - intros ->. rewrite bool_decide_eq_true_2 by done.
    by rewrite andb_false_r.
  - intros Hplan Hnone.
    assert (grants t permission = false) as ->.
    { unfold grants, Js.get.
      destruct (default ∅ (permissions t) !! permission) as [v|].
      - by destruct Hnone as [->|[->|[->|[->| ->]]]].
      - by rewrite bool_decide_eq_false_2. }
    by rewrite bool_decide_eq_false_2.
Qed.

Lemma capability_gate_witness :
  let e := {| id := "tenant-E"; name := "E"; subdomain := "e";
              plan := Some enterprise; max_endpoints := None;
              max_requests_per_day := None; permissions := Some ∅;
              rate_limit := None |} in
  let b := {| id := "tenant-B"; name := "B"; subdomain := "b";
              plan := Some basic; max_endpoints := None;
              max_requests_per_day := None;
              permissions := Some {[ "databases:delete" := Js.JBool false ]};
              rate_limit := None |} in
  let req_e := with_identity e api_key (Some "pk_E") (Sample.request "pk_E") in
  let req_b := with_identity b api_key (Some "sk_B") (Sample.request "sk_B") in
  tenant req_e = Some e
  ∧ requirePermission "databases:delete" req_e = Next req_e
  ∧ tenant req_b = Some b
  ∧ requirePermission "databases:delete" req_b
    = PermissionDenied "databases:delete"
  ∧ requirePermission "databases:read" req_b
    = PermissionDenied "databases:read".
Proof.
  intros e b req_e req_b. split; [reflexivity|].
  split; [by apply (capability_gate req_e e "databases:delete")|].
  split; [reflexivity|]. split.
  - apply (capability_gate req_b b "databases:delete"); [done..|].
    by left.
  - apply (capability_gate req_b b "databases:read"); [done..|].
    change (default ∅ (permissions b) !! "databases:read") with
      (@None Js.value).
    intros Hin. by apply (bool_decide_pack _) in Hin.
Defined.

(** C5 as it was stated fails for a capability named like a member
    that every object inherits: a tenant on the basic plan with an empty
    permission set is let through for ["constructor"]. *)
Lemma capability_gate_counterexample :
  let t := {| id := "tenant-T"; name := "T"; subdomain := "t";
              plan := Some basic; max_endpoints := Some 10;
              max_requests_per_day := Some 2; permissions := Some ∅;
              rate_limit := Some 2 |} in
  let req := with_identity t api_key (Some "pk_T") (Sample.request "pk_T") in
  tenant req = Some t
  ∧ plan t ≠ Some enterprise
  ∧ default ∅ (permissions t) !! "constructor" = None
  ∧ requirePermission "constructor" req = Next req
  ∧ requirePermission "constructor" req ≠ PermissionDenied "constructor".
Proof.
  intros t req. split; [reflexivity|]. split; [discriminate|].
  split; [reflexivity|]. split; [by vm_compute|]. by vm_compute.
Qed.

(** ** Resolution of an opaque key *)

Lemma join_on_spec (key : string) (t : Tenant) (ak : ApiKey) :
  join_on key t ak = true
  ↔ ak_tenant_id ak = Some (t_id t) ∧ ak_api_key ak = key.
Proof.
  unfold join_on. rewrite holds_and3, andb_true_iff, holds_eq_str.
  cbn. destruct (String.eqb_spec (ak_api_key ak) key); cbn.
  - destruct (ak_tenant_id ak) as [o|]; cbn; [|intuition congruence].
    destruct (String.eqb_spec (t_id t) o); intuition congruence.
  - intuition congruence.
Qed.

Lemma key_where_joined (key : string) (t : Tenant) (ak : ApiKey) :
  ak_api_key ak = key →
  key_where key t (Some (ak_api_key ak)) = true ↔ t_is_active t = Some true.
Proof.
  intros ->. unfold key_where.
  rewrite holds_and3, holds_or3, andb_true_iff, holds_is_true.
  assert (Sql.holds (Sql.eq_str (Some key) (Some key)) = true) as ->
    by by apply holds_eq_str.
  rewrite orb_true_r. tauto.
Qed.

Lemma key_where_unjoined (key : string) (t : Tenant) :
  key_where key t None = true
  ↔ t_api_key t = key ∧ t_is_active t = Some true.
Proof.
  unfold key_where.
  rewrite holds_and3, holds_or3, andb_true_iff, holds_is_true.
  cbn. rewrite orb_false_r.
  destruct (String.eqb_spec (t_api_key t) key); intuition congruence.
Qed.

Lemma NoDup_fmap_eq {A B} (f : A → B) (l : list A) (x y : A) :
  NoDup (f <$> l) → x ∈ l → y ∈ l → f x = f y → x = y.
Proof.
  induction l as [|z l IH]; [by intros _ ?%elem_of_nil|].
  rewrite fmap_cons, NoDup_cons, !elem_of_cons.
  intros [Hz Hl] [->|Hx] [->|Hy] Hf; [done| | |by apply IH].
  - destruct Hz. rewrite Hf. by apply list_elem_of_fmap_2.
  - destruct Hz. rewrite <- Hf. by apply list_elem_of_fmap_2.
Qed.

Lemma select_tenant_by_key_elem (key : string) (db : DB) (r : KeyRow) :
  r ∈ select_tenant_by_key key db
  ↔ ∃ t, t ∈ tenants db ∧ r ∈ key_rows_of key (api_keys db) t.
Proof.
  unfold select_tenant_by_key. rewrite list_elem_of_join. split.
  - intros (rows & Hr & (t & -> & Ht)%list_elem_of_fmap). eauto.
  - intros (t & Ht & Hr). eexists. split; [done|].
    by apply list_elem_of_fmap_2.
Qed.

(** The credential [key] is the secondary key [ak] of the active tenant
    [t], and no other tenant has it as its primary key. *)
Section SecondaryKey.

Variables (db : DB) (key : string) (t : Tenant) (ak : ApiKey).

Hypothesis Hunique : unique_api_keys db.
Hypothesis Hak : ak ∈ api_keys db.
Hypothesis Hkey : ak_api_key ak = key.
Hypothesis Howner : ak_tenant_id ak = Some (t_id t).
Hypothesis Ht : t ∈ tenants db.
Hypothesis Hactive : t_is_active t = Some true.
Hypothesis Hprimary :
  ∀ t', t' ∈ tenants db → t_api_key t' = key → t_id t' = t_id t.

Lemma the_key (a : ApiKey) : a ∈ api_keys db → ak_api_key a = key → a = ak.
Proof.
  intros Ha Hk. eapply (NoDup_fmap_eq ak_api_key); [apply Hunique|done..|].
  by rewrite Hk.
Qed.

Lemma key_rows_of_owner : joined t ak ∈ key_rows_of key (api_keys db) t.
Proof.
  unfold key_rows_of.
  assert (ak ∈ filter (λ a, join_on key t a) (api_keys db)) as Hin.
  { apply list_elem_of_filter. split; [|done].
    apply Is_true_true, join_on_spec. done. }
  destruct (filter (λ a, join_on key t a) (api_keys db)) as [|a m] eqn:Hm;
    [by apply elem_of_nil in Hin|].
  apply list_elem_of_fmap_2, list_elem_of_filter. split; [|done].
  by apply Is_true_true, key_where_joined.
Qed.

Lemma key_rows_of_elem (t' : Tenant) (r : KeyRow) :
  t' ∈ tenants db →
  r ∈ key_rows_of key (api_keys db) t' →
  r = joined t' ak ∧ t_id t' = t_id t.
Proof.
  intros Ht'. unfold key_rows_of.
  destruct (filter (λ a, join_on key t' a) (api_keys db)) as [|a m] eqn:Hm.
  - destruct (key_where key t' None) eqn:Hw; [|by intros ?%elem_of_nil].
    apply key_where_unjoined in Hw as [Hp _].
    assert (ak ∈ filter (λ a, join_on key t' a) (api_keys db)) as Hin.
    { apply list_elem_of_filter. split; [|done].
      apply Is_true_true, join_on_spec. split; [|done].
      rewrite Howner. f_equal. symmetry. by apply Hprimary. }
    rewrite Hm in Hin. by apply elem_of_nil in Hin.
  - intros (x & -> & [_ Hx]%list_elem_of_filter)%list_elem_of_fmap.
    rewrite <- Hm in Hx.
    apply list_elem_of_filter in Hx as [Hj Hx].
    apply Is_true_true, join_on_spec in Hj as [Hid Hk].
    assert (x = ak) as -> by by apply the_key.
    split; [done|]. rewrite Howner in Hid. by injection Hid.
Qed.

(** The first row of the lookup is the join of the owner with [ak]. *)
Lemma select_tenant_by_key_secondary :
  ∃ t' rows, select_tenant_by_key key db = joined t' ak :: rows
             ∧ t' ∈ tenants db ∧ t_id t' = t_id t.
Proof.
  assert (joined t ak ∈ select_tenant_by_key key db) as Hin.
  { apply select_tenant_by_key_elem. eauto using key_rows_of_owner. }
  destruct (select_tenant_by_key key db) as [|r rows] eqn:Hrows;
    [by apply elem_of_nil in Hin|].
  assert (r ∈ select_tenant_by_key key db) as Hr
    by (rewrite Hrows; apply elem_of_cons; by left).
  apply select_tenant_by_key_elem in Hr as (t' & Ht' & Hr).
  apply key_rows_of_elem in Hr as [-> Hid]; [|done].
  eauto.
Qed.

End SecondaryKey.

(** What [authenticateTenant] does with an opaque key once the lookup
    answered. *)
Lemma authenticateTenant_opaque (env : Env) (req : Request) (db : DB)
    (key : string) :
  credential req = Some key →
  key ≠ "" →
  String.prefix "eyJ" key = false →
  down env SelectTenantByKey = false →
  authenticateTenant env req db =
    try_catch
      (match select_tenant_by_key key db with
       | [] => ret InvalidCredential
       | row :: _ =>
         if expired env row then ret CredentialExpired
         else
           let* _ :=
             if Js.truthy_num (kr_api_key_rate_limit row)
             then pool_query env UpdateKeyLastUsed
                    (λ db, (tt, update_key_last_used (now env) key db))
             else ret tt in
           authenticateTenant_admit env req key row
       end)
      (ret AuthenticationFailed) db.
Proof.
  intros Hcred Hne Hpre Hup. unfold authenticateTenant. rewrite Hcred.
  change (default "" (Some key)) with key.
  assert (Js.truthy_str (Some key) = true) as ->.
  { cbn. by destruct (String.eqb_spec key "") as [->|]. }
  rewrite Hpre. cbn [negb].
  unfold try_catch. unfold bind at 1, pool_query at 1. by rewrite Hup.
Qed.




(** ** The active flag of a secondary key *)














Lemma authenticateTenant_admit_returns (env : Env) (req : Request)
    (key : string) (row : KeyRow) (db : DB) :
  ∃ o db', authenticateTenant_admit env req key row db = (Ok o, db').
Proof.
  destruct (down env CountUsage) eqn:Hc.
  - destruct (authenticateTenant_admit_down env req key row db Hc)
      as (req' & db' & ->). eauto.
  - unfold authenticateTenant_admit. unfold bind at 1.
    rewrite checkRateLimit_up by done. cbn.
    destruct (Js.lt_num _ _); cbn; [|run; eauto].
    unfold bind.
    destruct (logAPIUsage_returns env
      (with_identity (tenant_of_key_row row) api_key (Some key) req) db)
      as [db' ->].
    eauto.
Qed.




(** The same outcome for every secondary key with a rate limit: when the
    update of [last_used_at] throws, the request is answered 500 although
    the key resolved and is unexpired. *)
Lemma last_used_failure_any_key (env : Env) (req : Request) (db : DB)
    (key : string) (t : Tenant) (ak : ApiKey) :
  credential req = Some key →
  key ≠ "" →
  String.prefix "eyJ" key = false →
  down env SelectTenantByKey = false →
  down env UpdateKeyLastUsed = true →
  unique_api_keys db →
  ak ∈ api_keys db →
  ak_api_key ak = key →
  ak_tenant_id ak = Some (t_id t) →
  t ∈ tenants db →
  t_is_active t = Some true →
  (∀ t', t' ∈ tenants db → t_api_key t' = key → t_id t' = t_id t) →
  (∀ e, ak_expires_at ak = Some e → now env ≤ e) →
  Js.truthy_num (ak_rate_limit ak) = true →
  authenticateTenant env req db = (Ok AuthenticationFailed, db).
Proof.
  intros Hcred Hne Hpre Hup Hdown Hunique Hak Hkey Howner Ht Hactive
    Hprimary Hexp Hlim.
  rewrite (authenticateTenant_opaque env req db key) by done.
  destruct (select_tenant_by_key_secondary db key t ak)
    as (t' & rows & -> & _ & _); [done..|].
  assert (expired env (joined t' ak) = false) as ->.
  { unfold expired. cbn. destruct (ak_expires_at ak) as [e|]; [|done].
    apply Z.ltb_ge. by apply Hexp. }
  cbn [kr_api_key_rate_limit joined]. rewrite Hlim.
  unfold try_catch, bind, pool_query. by rewrite Hdown.
Qed.

(** ** Joining a tenant room *)

Lemma select_tenant_for_join_valid (db : DB) (tid key : string) :
  valid_tenant db tid key →
  ∃ row rows, select_tenant_for_join tid key db = row :: rows.
Proof.
  intros (t & Ht & Hid & Hkey & Hactive).
  assert (t ∈ select_tenant_for_join tid key db) as Hin.
  { apply list_elem_of_filter. split; [|done]. apply Is_true_true.
    rewrite !holds_and3, !andb_true_iff, !holds_eq_str, holds_is_true.
    by rewrite Hid, Hkey. }
  destruct (select_tenant_for_join tid key db); [|eauto].
  by apply elem_of_nil in Hin.
Qed.

(** A join that finds no tenant, or whose lookup fails, changes neither
    the socket nor the store, and emits one error. *)
Lemma on_join_tenant_rejected (env : Env) (tid key : string) (w : Ws) :
  down env SelectTenantForJoin = true
  ∨ select_tenant_for_join tid key (store w) = [] →
  ∃ msg, on_join_tenant env tid key w
         = (Ok tt, {| sock := sock w; store := store w;
                      out := out w ++ [ToSocket (EvError msg)] |}).
Proof.
  intros Hfail. unfold on_join_tenant. run.
  destruct (down env SelectTenantForJoin); [eauto|].
  destruct Hfail as [Hd | ->]; [done|]. eauto.
Qed.

(** An authenticated-only operation on a socket without a tenant. *)
Lemma on_execute_query_rejected (env : Env) (query : string) (w : Ws) :
  Js.truthy_str (tenantId (sock w)) = false →
  on_execute_query env query w
  = (Ok tt, {| sock := sock w; store := store w;
               out := out w ++ [ToSocket (EvError "Not authenticated")] |}).
Proof. intros Hnone. unfold on_execute_query. run. by rewrite Hnone. Qed.

(** The same for every accepted lookup: when the upsert throws, the
    socket is left bound to the tenant, and an 'execute-query' that
    follows is served. *)
Lemma on_join_tenant_persist_failure (env : Env) (tid key : string)
    (w : Ws) :
  down env SelectTenantForJoin = false →
  down env UpsertConnection = true →
  valid_tenant (store w) tid key →
  tid ≠ "" →
  let w' := snd (on_join_tenant env tid key w) in
  tenantId (sock w') = Some tid
  ∧ room_of tid ∈ rooms (sock w')
  ∧ store w' = store w
  ∧ out w' = (out w ++ [ToSocket (EvError "Connection failed")])%list
  ∧ ∀ env' query,
      out (snd (on_execute_query env' query w'))
      = (out w' ++ [ToSocket EvQueryResult;
                    ToRoom (room_of tid)
                      (EvQueryExecuted (socket_id (sock w)) query
                         (now env'))])%list.
Proof.
  intros Hup Hdown (row & rows & Hrows)%select_tenant_for_join_valid Hne.
  unfold on_join_tenant. run. rewrite Hup, Hrows. cbn. rewrite Hdown. cbn.
  split; [done|]. split; [set_solver|]. split; [done|]. split; [done|].
  intros env' query. unfold on_execute_query. run. cbn.
  destruct (String.eqb_spec tid "") as [->|_]; [done|]. cbn.
  by rewrite <- !app_assoc.
Qed.

(** C7, at a join the code leaves half done. A fresh socket joins with
    the id and primary key of the active tenant [T] while the upsert of
    the connection row fails. The client is told 'Connection failed' and
    no row is stored, yet the socket keeps the tenant and the room: it is
    [Joined], and its next 'execute-query' is served and broadcast instead
    of being answered 'Not authenticated'. *)
Theorem failed_persist_leaves_joined :
  let env := Sample.env_with Sample.t0 (Sample.only UpsertConnection) in
  let w0 := Sample.ws0 "sock-1" Sample.db0 in
  let w1 := snd (on_join_tenant env "tenant-T" "pk_T" w0) in
  let w2 := snd (on_execute_query env "SELECT 1" w1) in
  state_of (sock w0) = Connected
  ∧ out w1 = [ToSocket (EvError "Connection failed")]
  ∧ realtime_connections (store w1) = []
  ∧ connected (sock w1) = true
  ∧ tenantId (sock w1) = Some "tenant-T"
  ∧ state_of (sock w1) = Joined
  ∧ bool_decide (room_of "tenant-T" ∈ rooms (sock w1)) = true
  ∧ out w2 = [ToSocket (EvError "Connection failed");
              ToSocket EvQueryResult;
              ToRoom "tenant-tenant-T"
                (EvQueryExecuted "sock-1" "SELECT 1" Sample.t0)].
Proof.
  repeat split; vm_compute; reflexivity.
Qed.

(** A join with valid credentials, the store answering: the socket is
    bound, the connection row is upserted under the socket id and
    'joined' is emitted. *)
Lemma on_join_tenant_accepted (env : Env) (tid key : string) (w : Ws) :
  down env SelectTenantForJoin = false →
  down env UpsertConnection = false →
  valid_tenant (store w) tid key →
  ∃ row s',
    on_join_tenant env tid key w
    = (Ok tt,
       {| sock := s';
          store := upsert_connection (now env) tid (socket_id (sock w))
                     (socket_id (sock w)) [("connectedAt", now env)]
                     (store w);
          out := out w ++ [ToSocket (EvJoined tid row)] |})
    ∧ socket_id s' = socket_id (sock w)
    ∧ tenantId s' = Some tid.
Proof.
  intros Hup Hup' (row & rows & Hrows)%select_tenant_for_join_valid.
  unfold on_join_tenant. run. rewrite Hup, Hrows. cbn. rewrite Hup'.
  eexists _, _. split; [reflexivity|]. by split.
Qed.

Lemma upsert_connection_tenants (ts : Z) (tid cid sid : string)
    (info : list (string * Z)) (db : DB) :
  tenants (upsert_connection ts tid cid sid info db) = tenants db.
Proof. unfold upsert_connection. by case_bool_decide. Qed.

Lemma refresh_ids (ts : Z) (cid : string) (rows : list Connection) :
  rc_connection_id <$>
    ((λ r, if String.eqb (rc_connection_id r) cid then refresh ts r else r)
     <$> rows)
  = rc_connection_id <$> rows.
Proof.
  rewrite <- list_fmap_compose. apply list_fmap_ext. intros _ r _. cbn.
  by destruct (String.eqb (rc_connection_id r) cid).
Qed.

(** The upsert keeps [UNIQUE (connection_id)]. *)
Lemma upsert_connection_unique (ts : Z) (tid cid sid : string)
    (info : list (string * Z)) (db : DB) :
  unique_connection_ids db →
  unique_connection_ids (upsert_connection ts tid cid sid info db).
Proof.
  unfold unique_connection_ids, upsert_connection. intros Hnd.
  case_bool_decide as Hin; cbn.
  - by rewrite refresh_ids.
  - rewrite fmap_app. apply NoDup_app. split; [done|]. split.
    + intros x Hx ->%list_elem_of_singleton. done.
    + apply NoDup_singleton.
Qed.

(** On a conflict the upsert adds no row. *)
Lemma upsert_connection_conflict (ts : Z) (tid cid sid : string)
    (info : list (string * Z)) (db : DB) :
  cid ∈ rc_connection_id <$> realtime_connections db →
  length (realtime_connections (upsert_connection ts tid cid sid info db))
  = length (realtime_connections db).
Proof.
  intros Hin. unfold upsert_connection.
  rewrite bool_decide_eq_true_2 by done. cbn. by rewrite length_fmap.
Qed.

Lemma connections_of_refresh (ts : Z) (cid : string)
    (rows : list Connection) :
  NoDup (rc_connection_id <$> rows) →
  cid ∈ rc_connection_id <$> rows →
  ∃ r, filter (λ r, rc_connection_id r = cid)
         ((λ r, if String.eqb (rc_connection_id r) cid
                then refresh ts r else r) <$> rows)
       = [refresh ts r].
Proof.
  induction rows as [|r rows IH]; [by intros _ ?%elem_of_nil|].
  rewrite !fmap_cons, NoDup_cons, elem_of_cons. intros [Hr Hnd] Hin.
  destruct (String.eqb_spec (rc_connection_id r) cid) as [Heq|Hne].
  - rewrite filter_cons_True by done. exists r. f_equal.
    apply elem_of_nil_inv. intros x [Hx Hin']%list_elem_of_filter.
    apply Hr. rewrite Heq, <- Hx, <- (refresh_ids ts cid).
    by apply list_elem_of_fmap_2.
  - rewrite filter_cons_False by done.
    destruct Hin as [->|Hin]; [done|]. by apply IH.
Qed.

(** After an upsert there is exactly one row for the connection id, with
    the heartbeat of the upsert and the active flag set. *)
Lemma upsert_connection_row (ts : Z) (tid cid sid : string)
    (info : list (string * Z)) (db : DB) :
  unique_connection_ids db →
  ∃ row, connections_of cid (upsert_connection ts tid cid sid info db)
         = [row]
         ∧ rc_connection_id row = cid
         ∧ rc_last_ping_at row = Some ts
         ∧ rc_is_active row = Some true.
Proof.
  unfold unique_connection_ids, connections_of, upsert_connection.
  intros Hnd. case_bool_decide as Hin; cbn.
  - destruct (connections_of_refresh ts cid _ Hnd Hin) as [r Hr].
    exists (refresh ts r). split; [done|]. split; [|done].
    assert (refresh ts r ∈ [refresh ts r]) as Hmem by left.
    rewrite <- Hr in Hmem. by apply list_elem_of_filter in Hmem as [? _].
  - assert (filter (λ r, rc_connection_id r = cid)
              (realtime_connections db) = []) as Hnone.
    { apply elem_of_nil_inv. intros x [Hx Hin']%list_elem_of_filter.
      apply Hin. rewrite <- Hx. by apply list_elem_of_fmap_2. }
    rewrite filter_app, Hnone, filter_cons_True, filter_nil by done.
    eexists. split; [reflexivity|]. done.
Qed.

Lemma upsert_connection_present (ts : Z) (tid cid sid : string)
    (info : list (string * Z)) (db : DB) :
  cid ∈ rc_connection_id <$>
          realtime_connections (upsert_connection ts tid cid sid info db).
Proof.
  unfold upsert_connection. case_bool_decide as Hin; cbn.
  - by rewrite refresh_ids.
  - rewrite fmap_app. apply elem_of_app. right. by left.
Qed.

(** A join on a socket whose connection id already has a row. *)
Lemma on_join_tenant_conflict (env : Env) (tid key : string) (w : Ws) :
  unique_connection_ids (store w) →
  socket_id (sock w) ∈ rc_connection_id <$> realtime_connections (store w) →
  down env SelectTenantForJoin = false →
  down env UpsertConnection = false →
  valid_tenant (store w) tid key →
  let w' := snd (on_join_tenant env tid key w) in
  (∃ row, connections_of (socket_id (sock w)) (store w') = [row]
          ∧ rc_last_ping_at row = Some (now env)
          ∧ rc_is_active row = Some true)
  ∧ length (realtime_connections (store w'))
    = length (realtime_connections (store w))
  ∧ unique_connection_ids (store w').
Proof.
  intros Hnd Hin Hup Hup' Hvalid w'.
  destruct (on_join_tenant_accepted env tid key w Hup Hup' Hvalid)
    as (row & s' & Hrun & _). subst w'. rewrite Hrun. cbn [snd store].
  split; [|split].
  - destruct (upsert_connection_row (now env) tid (socket_id (sock w))
                (socket_id (sock w)) [("connectedAt", now env)] (store w) Hnd)
      as (r & ? & _ & ? & ?). eauto.
  - by apply upsert_connection_conflict.
  - by apply upsert_connection_unique.
Qed.

Lemma update_inactive_ids (sid : string) (db : DB) :
  rc_connection_id <$> realtime_connections (update_inactive sid db)
  = rc_connection_id <$> realtime_connections db.
Proof.
  unfold update_inactive. cbn. rewrite <- list_fmap_compose.
  apply list_fmap_ext. intros _ r _. cbn.
  by destruct (String.eqb (rc_socket_id r) sid).
Qed.

(** 'disconnect' keeps the socket, the tenants and the connection ids. *)
Lemma on_disconnect_keeps (env : Env) (w : Ws) :
  let w' := snd (on_disconnect env w) in
  sock w' = sock w
  ∧ tenants (store w') = tenants (store w)
  ∧ rc_connection_id <$> realtime_connections (store w')
    = rc_connection_id <$> realtime_connections (store w).
Proof.
  unfold on_disconnect. run.
  destruct (down env UpdateInactive); cbn; [done|].
  split; [done|]. split; [done|]. apply update_inactive_ids.
Qed.

(** C8. A socket joins and then joins again under the same connection
    id, both joins with valid credentials and the store answering: the
    second join adds no row, the connection id has exactly one row, its
    heartbeat is the time of the second join and its active flag is true,
    and connection ids stay unique. The same holds when the connection
    row was marked inactive by a 'disconnect' in between. *)
Theorem rejoin_one_row (env1 env2 envd : Env) (w : Ws)
    (tid1 key1 tid2 key2 : string) :
  unique_connection_ids (store w) →
  down env1 SelectTenantForJoin = false →
  down env1 UpsertConnection = false →
  down env2 SelectTenantForJoin = false →
  down env2 UpsertConnection = false →
  valid_tenant (store w) tid1 key1 →
  valid_tenant (store w) tid2 key2 →
  let cid := socket_id (sock w) in
  let w1 := snd (on_join_tenant env1 tid1 key1 w) in
  ∀ w1', w1' = w1 ∨ w1' = snd (on_disconnect envd w1) →
  let w2 := snd (on_join_tenant env2 tid2 key2 w1') in
  socket_id (sock w1') = cid
  ∧ (∃ row, connections_of cid (store w2) = [row]
            ∧ rc_last_ping_at row = Some (now env2)
            ∧ rc_is_active row = Some true)
  ∧ length (realtime_connections (store w2))
    = length (realtime_connections (store w1'))
  ∧ unique_connection_ids (store w2).
Proof.
  intros Hnd Hup1 Hup1' Hup2 Hup2' Hv1 Hv2 cid w1 w1' Hw1'.
  destruct (on_join_tenant_accepted env1 tid1 key1 w Hup1 Hup1' Hv1)
    as (row & s' & Hrun & Hsid & _).
  assert (socket_id (sock w1) = cid
          ∧ tenants (store w1) = tenants (store w)
          ∧ unique_connection_ids (store w1)
          ∧ cid ∈ rc_connection_id <$> realtime_connections (store w1))
    as (Hsid1 & Hten1 & Hnd1 & Hin1).
  { subst w1. rewrite Hrun. cbn [snd sock store].
    split; [done|]. split; [apply upsert_connection_tenants|].
    split; [by apply upsert_connection_unique|].
    apply upsert_connection_present. }
  assert (socket_id (sock w1') = cid
          ∧ tenants (store w1') = tenants (store w)
          ∧ unique_connection_ids (store w1')
          ∧ cid ∈ rc_connection_id <$> realtime_connections (store w1'))
    as (Hsid' & Hten' & Hnd' & Hin').
  { destruct Hw1' as [->| ->]; [done|].
    destruct (on_disconnect_keeps envd w1) as (Hs & Ht & Hids).
    unfold unique_connection_ids. rewrite Hs, Ht, Hids. done. }
  split; [done|]. rewrite <- Hsid'.
  apply on_join_tenant_conflict; try done.
  - by rewrite Hsid'.
  - destruct Hv2 as (t & ? & ?). exists t. by rewrite Hten'.
Qed.

Lemma rejoin_one_row_witness :
  let env2 := Sample.env_with (Sample.t0 + Sample.minute) (λ _, false) in
  let w := Sample.ws0 "sock-1" Sample.db0 in
  let w1 := snd (on_join_tenant Sample.env0 "tenant-T" "pk_T" w) in
  let w1' := snd (on_disconnect Sample.env0 w1) in
  let w2 := snd (on_join_tenant env2 "tenant-T" "pk_T" w1') in
  unique_connection_ids (store w)
  ∧ valid_tenant (store w) "tenant-T" "pk_T"
  ∧ rc_is_active <$> realtime_connections (store w1') = [Some false]
  ∧ (∃ row, connections_of "sock-1" (store w2) = [row]
            ∧ rc_last_ping_at row = Some (Sample.t0 + Sample.minute)
            ∧ rc_is_active row = Some true)
  ∧ length (realtime_connections (store w2)) = 1%nat.
Proof.
  intros env2 w w1 w1' w2.
  assert (unique_connection_ids (store w)) as Hnd by apply NoDup_nil_2.
  assert (valid_tenant (store w) "tenant-T" "pk_T") as Hv.
  { exists Sample.T. split; [left|done]. }
  split; [done|]. split; [done|]. split; [by vm_compute|].
  destruct (rejoin_one_row Sample.env0 env2 Sample.env0 w
              "tenant-T" "pk_T" "tenant-T" "pk_T"
              Hnd eq_refl eq_refl eq_refl eq_refl Hv Hv w1')
    as (_ & Hrow & _); [by right|].
  split; [exact Hrow|]. by vm_compute.
Defined.

(** ** The periodic sweep *)

Lemma holds_lt_ts (a : option Z) (b : Z) :
  Sql.holds (Sql.lt_ts a (Some b)) = true ↔ ∃ p, a = Some p ∧ p < b.
Proof.
  destruct a as [p|]; cbn.
  - destruct (Z.ltb_spec p b); split; try done.
    + eauto.
    + intros (q & [= <-] & ?). lia.
  - split; [done|]. by intros (? & ? & ?).
Qed.

Lemma holds_is_false (a : option bool) :
  Sql.holds (Sql.eq_bool a (Some false)) = true ↔ a = Some false.
Proof. by destruct a as [[]|]. Qed.

Lemma stale_spec (ts : Z) (r : Connection) :
  stale ts r = true
  ↔ (∃ p, rc_last_ping_at r = Some p ∧ p < ts - STALE_MS)
    ∨ rc_is_active r = Some false.
Proof.
  unfold stale.
  by rewrite holds_or3, orb_true_iff, holds_lt_ts, holds_is_false.
Qed.

(** C9. A run of the sweep whose statement is executed deletes exactly
    the connection rows whose last heartbeat is more than ten minutes old
    or whose active flag is false: the rows left are the others, in their
    order, and no other table changes. An active connection last heard
    eleven minutes ago is deleted, one last heard nine minutes ago is
    kept. *)
Theorem sweep_deletes_stale (env : Env) (db : DB) :
  down env DeleteStale = false →
  let db' := snd (cleanup_inactive_connections env db) in
  realtime_connections db'
  = filter (λ r, stale (now env) r = false) (realtime_connections db)
  ∧ (∀ r, r ∈ realtime_connections db →
       (r ∉ realtime_connections db'
        ↔ (∃ p, rc_last_ping_at r = Some p
                ∧ p < now env - 10 * 60 * 1000)
          ∨ rc_is_active r = Some false))
  ∧ (∀ r, r ∈ realtime_connections db' → r ∈ realtime_connections db)
  ∧ (tenants db' = tenants db ∧ api_keys db' = api_keys db
     ∧ api_usage_logs db' = api_usage_logs db)
  ∧ (∀ r, r ∈ realtime_connections db →
       rc_is_active r = Some true →
       (rc_last_ping_at r = Some (now env - 11 * 60 * 1000) →
        r ∉ realtime_connections db')
       ∧ (rc_last_ping_at r = Some (now env - 9 * 60 * 1000) →
          r ∈ realtime_connections db')).
Proof.
  intros Hup db'.
  assert (realtime_connections db'
          = filter (λ r, stale (now env) r = false)
              (realtime_connections db)) as Hrows.
  { subst db'. unfold cleanup_inactive_connections. run.
    by rewrite Hup. }
  assert (∀ r, r ∈ realtime_connections db →
            r ∈ realtime_connections db' ↔ stale (now env) r = false)
    as Hkept.
  { intros r Hr. rewrite Hrows, list_elem_of_filter. tauto. }
  split; [done|]. split; [|split; [|split; [|]]].
  - intros r Hr. rewrite (Hkept r Hr), not_false_iff_true.
    apply stale_spec.
  - intros r. rewrite Hrows. by intros [_ ?]%list_elem_of_filter.
  - subst db'. unfold cleanup_inactive_connections. run.
    by rewrite Hup.
  - intros r Hr Hactive. split; intros Hping.
    + rewrite (Hkept r Hr), not_false_iff_true. apply stale_spec.
      left. eexists. split; [done|]. unfold STALE_MS. lia.
    + rewrite (Hkept r Hr). apply not_true_iff_false.
      intros [(p & Hp & Hlt)|Hoff]%stale_spec.
      * rewrite Hping in Hp. injection Hp as <-.
        unfold STALE_MS in Hlt. lia.
      * by rewrite Hactive in Hoff.
Qed.

Lemma sweep_deletes_stale_witness :
  let old := Sample.conn "sock-old" (Sample.t0 - 11 * Sample.minute) true in
  let slow := Sample.conn "sock-slow" (Sample.t0 - 9 * Sample.minute) true in
  let gone := Sample.conn "sock-gone" Sample.t0 false in
  let db := with_realtime_connections [old; slow; gone] Sample.db0 in
  down Sample.env0 DeleteStale = false
  ∧ realtime_connections (snd (cleanup_inactive_connections Sample.env0 db))
    = [slow].
Proof.
  intros old slow gone db. split; [reflexivity|].
  destruct (sweep_deletes_stale Sample.env0 db eq_refl) as (-> & _).
  vm_compute. reflexivity.
Defined.

(** * Further properties of the middleware *)

(** ** Where the credential is taken from *)

Lemma append_cons (c : Ascii.ascii) (p s : string) :
  String c p +:+ s = String c (p +:+ s).
Proof. reflexivity. Qed.

Lemma prefix_append (p s : string) : String.prefix p (p +:+ s) = true.
Proof.
  induction p as [|c p IH]; [by destruct s|].
  rewrite append_cons. cbn.
  destruct (Ascii.ascii_dec c c); [exact IH|congruence].
Qed.

Lemma substring_all (n : nat) (s : string) :
  (String.length s ≤ n)%nat → String.substring 0 n s = s.
Proof.
  revert n. induction s as [|c s IH]; intros [|n] Hn; cbn in *;
    try done; try lia.
  f_equal. apply IH. lia.
Qed.

Lemma substring_append (p s : string) (n : nat) :
  String.substring (String.length p) n (p +:+ s) = String.substring 0 n s.
Proof.
  induction p as [|c p IH]; [done|]. rewrite append_cons. cbn. apply IH.
Qed.

Lemma length_append_ge (p s : string) :
  (String.length s ≤ String.length (p +:+ s))%nat.
Proof.
  induction p as [|c p IH]; [done|]. rewrite append_cons. cbn. lia.
Qed.

Lemma replace_unfold (pat rep s : string) :
  Js.replace pat rep s
  = if String.prefix pat s
    then rep +:+ String.substring (String.length pat) (String.length s) s
    else match s with
         | EmptyString => EmptyString
         | String c s' => String c (Js.replace pat rep s')
         end.
Proof. by destruct s. Qed.

(** [("Bearer " + k).replace("Bearer ", "")] is [k]. *)
Lemma replace_prefix (pat rep s : string) :
  Js.replace pat rep (pat +:+ s) = rep +:+ s.
Proof.
  rewrite replace_unfold, prefix_append, substring_append.
  f_equal. apply substring_all, length_append_ge.
Qed.

Lemma prefix_split (p s : string) :
  String.prefix p s = true → ∃ b, s = p +:+ b.
Proof.
  revert s. induction p as [|c p IH]; intros s Hp; [by exists s|].
  destruct s as [|c' s]; [done|]. cbn in Hp.
  destruct (Ascii.ascii_dec c c') as [->|]; [|done].
  destruct (IH s Hp) as [b ->]. by exists b.
Qed.

(** [h.replace(pat, rep)] where [pat] does not occur in [h]. *)
Lemma replace_absent (pat rep h : string) :
  absent pat h → Js.replace pat rep h = h.
Proof.
  induction h as [|c h IH]; intros Habs; rewrite replace_unfold.
  - destruct (String.prefix pat "") eqn:Hp; [|done].
    apply prefix_split in Hp as [b Hb]. by destruct (Habs "" b).
  - destruct (String.prefix pat (String c h)) eqn:Hp.
    + apply prefix_split in Hp as [b Hb]. by destruct (Habs "" b).
    + f_equal. apply IH. intros a' b' ->. by apply (Habs (String c a') b').
Qed.

(** [h.replace(pat, rep)] where [pat] occurs in [h], first after [a]. *)
Lemma replace_first_occurrence (pat rep a b h : string) :
  first_occurrence pat a b h → Js.replace pat rep h = a +:+ rep +:+ b.
Proof.
  intros [-> Hmin]. induction a as [|c a IH];
    [exact (replace_prefix pat rep b)|].
  rewrite append_cons, replace_unfold.
  destruct (String.prefix pat (String c (a +:+ pat +:+ b))) eqn:Hp.
  - apply prefix_split in Hp as [b' Hb].
    pose proof (Hmin "" b' Hb) as Hle. cbn in Hle. lia.
  - rewrite append_cons. f_equal. apply IH. intros a' b' Heq.
    pose proof (Hmin (String c a') b' (f_equal (String c) Heq)) as Hle.
    cbn in Hle. lia.
Qed.

(** Every string has [pat] somewhere, and then a first time, or nowhere. *)
Lemma occurrence_cases (pat h : string) :
  absent pat h ∨ ∃ a b, first_occurrence pat a b h.
Proof.
  induction h as [|c h IH].
  - destruct (String.prefix pat "") eqn:Hp.
    + apply prefix_split in Hp as [b Hb]. right. exists "", b.
      split; [done|]. intros; cbn; lia.
    + left. intros [|c' a'] b' Heq; [|done].
      change ("" +:+ pat +:+ b') with (pat +:+ b') in Heq.
      by rewrite Heq, prefix_append in Hp.
  - destruct (String.prefix pat (String c h)) eqn:Hp.
    { apply prefix_split in Hp as [b Hb]. right. exists "", b.
      split; [done|]. intros; cbn; lia. }
    assert (∀ b', String c h ≠ pat +:+ b') as Hhead.
    { intros b' Heq. by rewrite Heq, prefix_append in Hp. }
    destruct IH as [Habs|(a & b & -> & Hmin)].
    + left. intros [|c' a'] b' Heq; [by apply (Hhead b')|].
      rewrite append_cons in Heq. injection Heq as _ Heq.
      by apply (Habs a' b').
    + right. exists (String c a), b. split; [done|].
      intros [|c' a'] b' Heq; [by destruct (Hhead b')|].
      rewrite !append_cons in Heq. injection Heq as _ Heq.
      pose proof (Hmin a' b' Heq). cbn. lia.
Qed.

Lemma truthy_str_some (k : string) : k ≠ "" → Js.truthy_str (Some k) = true.
Proof. intros Hk. cbn. by destruct (String.eqb_spec k "") as [->|]. Qed.

Lemma truthy_str_missing (o : option string) :
  missing_or_empty o → Js.truthy_str o = false.
Proof. by intros [->| ->]. Qed.

(** X1. The credential is the [X-API-Key] header when it is not empty.
    When that header is missing or empty it is the [Authorization]
    header with its first ["Bearer "] removed, wherever in the value
    that stands, and the whole value when ["Bearer "] does not occur in
    it, provided what remains is not empty; every value is in one of
    these two cases. When nothing remains, or there is no
    [Authorization] header, it is the [api_key] query parameter. When
    all three are missing or empty the request is answered 401
    "Authentication required" and the store is not touched. *)
Theorem credential_sources (env : Env) (req : Request) (db : DB) :
  (∀ k, headers req !! "x-api-key" = Some k → k ≠ "" →
        credential req = Some k)
  ∧ (missing_or_empty (headers req !! "x-api-key") →
     ∀ h s, headers req !! "authorization" = Some h →
            without_first "Bearer " h s →
            (s ≠ "" → credential req = Some s)
            ∧ (s = "" → credential req = query req !! "api_key")
            ∧ (s = "" → missing_or_empty (query req !! "api_key") →
               authenticateTenant env req db = (Ok Unauthenticated, db)))
  ∧ (missing_or_empty (headers req !! "x-api-key") →
     headers req !! "authorization" = None →
     credential req = query req !! "api_key"
     ∧ (missing_or_empty (query req !! "api_key") →
        authenticateTenant env req db = (Ok Unauthenticated, db)))
  ∧ (∀ h, ∃ s, without_first "Bearer " h s).
Proof.
  split; [|split; [|split]].
  - intros k Hx Hk. unfold credential. rewrite Hx.
    unfold Js.or_str at 2. rewrite truthy_str_some by done.
    unfold Js.or_str. by rewrite truthy_str_some.
  - intros Hx%truthy_str_missing h s Ha Hs.
    assert (Js.replace "Bearer " "" h = s) as Hreplace.
    { destruct Hs as [(a & b & Hocc & ->)|[Habs ->]].
      - by rewrite (replace_first_occurrence _ _ a b).
      - by apply replace_absent. }
    assert (credential req = Js.or_str (Some s) (query req !! "api_key"))
      as Hcred.
    { unfold credential. rewrite Ha. unfold Js.or_str at 2. rewrite Hx.
      cbn [fmap option_fmap option_map]. by rewrite Hreplace. }
    split; [|split].
    + intros Hne. rewrite Hcred. unfold Js.or_str.
      by rewrite truthy_str_some.
    + intros ->. by rewrite Hcred.
    + intros -> Hq%truthy_str_missing. unfold authenticateTenant.
      rewrite Hcred. unfold Js.or_str. cbn [Js.truthy_str String.eqb negb].
      by rewrite Hq.
  - intros Hx%truthy_str_missing Ha.
    assert (credential req = query req !! "api_key") as Hcred.
    { unfold credential. rewrite Ha. unfold Js.or_str at 2. by rewrite Hx. }
    split; [done|]. intros Hq%truthy_str_missing.
    unfold authenticateTenant. rewrite Hcred. by rewrite Hq.
  - intros h. destruct (occurrence_cases "Bearer " h)
      as [Habs|(a & b & Hocc)].
    + exists h. by right.
    + exists (a +:+ b). left. by exists a, b.
Qed.

Lemma credential_sources_witness :
  let req h :=
    {| headers := {[ "authorization" := h ]}; query := ∅;
       method := "GET"; path := "/"; ip := "127.0.0.1"; tenant := None;
       authMethod := None; apiKey := None; startTime := None |} in
  credential (req "Bearer sk_live") = Some "sk_live"
  ∧ credential (req "sk_Bearer live") = Some "sk_live"
  ∧ credential (req "Basic abc") = Some "Basic abc"
  ∧ authenticateTenant Sample.env0 (req "Bearer ") Sample.db0
    = (Ok Unauthenticated, Sample.db0).
Proof.
  intros req.
  assert (∀ h, missing_or_empty (headers (req h) !! "x-api-key")) as Hx
    by (intros h; by left).
  assert (∀ h, headers (req h) !! "authorization" = Some h) as Ha
    by (intros h; reflexivity).
  assert (first_occurrence "Bearer " "" "sk_live" "Bearer sk_live") as H1.
  { split; [done|]. intros; cbn; lia. }
  assert (first_occurrence "Bearer " "sk_" "live" "sk_Bearer live") as H2.
  { split; [done|]. intros a' b' Heq.
    do 3 (destruct a' as [|? a']; [by cbv in Heq|]). cbn. lia. }
  assert (absent "Bearer " "Basic abc") as H3.
  { intros a' b' Heq.
    do 10 (destruct a' as [|? a']; [by cbv in Heq|]). by cbv in Heq. }
  assert (first_occurrence "Bearer " "" "" "Bearer ") as H4.
  { split; [done|]. intros; cbn; lia. }
  split; [|split; [|split]].
  - destruct (credential_sources Sample.env0 (req "Bearer sk_live")
                Sample.db0) as (_ & Hauth & _).
    destruct (Hauth (Hx _) "Bearer sk_live" "sk_live" (Ha _)) as [Hcred _];
      [left; by exists "", "sk_live"|].
    by apply Hcred.
  - destruct (credential_sources Sample.env0 (req "sk_Bearer live")
                Sample.db0) as (_ & Hauth & _).
    destruct (Hauth (Hx _) "sk_Bearer live" "sk_live" (Ha _)) as [Hcred _];
      [left; by exists "sk_", "live"|].
    by apply Hcred.
  - destruct (credential_sources Sample.env0 (req "Basic abc")
                Sample.db0) as (_ & Hauth & _).
    destruct (Hauth (Hx _) "Basic abc" "Basic abc" (Ha _)) as [Hcred _];
      [by right|].
    by apply Hcred.
  - destruct (credential_sources Sample.env0 (req "Bearer ")
                Sample.db0) as (_ & Hauth & _).
    destruct (Hauth (Hx _) "Bearer " "" (Ha _)) as (_ & _ & Hnone);
      [left; by exists "", ""|].
    apply Hnone; [done|by left].
Defined.

(** ** What a resolved identity stands for *)

(** A row of the key lookup: its tenant is active, and the credential is
    the tenant's primary key or the value of a secondary key of the tenant,
    whose columns the row carries. *)
Lemma key_rows_of_sound (key : string) (aks : list ApiKey) (t : Tenant)
    (r : KeyRow) :
  r ∈ key_rows_of key aks t →
  t_is_active t = Some true
  ∧ ((r = unjoined t ∧ t_api_key t = key)
     ∨ ∃ ak, ak ∈ aks ∧ ak_api_key ak = key
             ∧ ak_tenant_id ak = Some (t_id t) ∧ r = joined t ak).
Proof.
  unfold key_rows_of.
  destruct (filter (λ a, join_on key t a) aks) as [|a m] eqn:Hm.
  - destruct (key_where key t None) eqn:Hw; [|by intros ?%elem_of_nil].
    apply key_where_unjoined in Hw as [Hp Hactive].
    intros ->%list_elem_of_singleton. split; [done|]. by left.
  - intros (x & -> & [Hw Hx]%list_elem_of_filter)%list_elem_of_fmap.
    rewrite <- Hm in Hx. apply list_elem_of_filter in Hx as [Hj Hx].
    apply Is_true_true, join_on_spec in Hj as [Hid Hk].
    apply Is_true_true, key_where_joined in Hw; [|done].
    split; [done|]. right. eauto 10.
Qed.

Lemma logAPIUsage_store (env : Env) (req : Request) (db : DB) :
  ∃ db', logAPIUsage env req db = (Ok (with_startTime (now env) req), db')
         ∧ (db' = db
            ∨ ∃ t, tenant req = Some t ∧ down env InsertUsage = false
                   ∧ db' = insert_usage
                             (usage_row (now env) (id t)
                                (with_startTime (now env) req)) db).
Proof.
  unfold logAPIUsage. run. cbn [tenant with_startTime].
  destruct (tenant req) as [t|]; [|eauto].
  destruct (down env InsertUsage); [eauto|].
  eexists. split; [done|]. right. eauto.
Qed.

(** The two ways out of the last part of [authenticateTenant]. *)
Lemma authenticateTenant_admit_cases (env : Env) (req : Request)
    (key : string) (row : KeyRow) (db : DB) :
  (∃ r, authenticateTenant_admit env req key row db
        = (Ok (QuotaExceeded (effective_limit row) r), db))
  ∨ ∃ db',
      authenticateTenant_admit env req key row db
      = (Ok (Next (with_startTime (now env)
                     (with_identity (tenant_of_key_row row) api_key
                        (Some key) req))), db')
      ∧ (db' = db
         ∨ down env InsertUsage = false
           ∧ db' = insert_usage
                     (usage_row (now env) (t_id (kr_tenant row))
                        (with_startTime (now env)
                           (with_identity (tenant_of_key_row row) api_key
                              (Some key) req))) db).
Proof.
  assert (∃ r, checkRateLimit env (t_id (kr_tenant row))
                 (effective_limit row) db = (Ok r, db)
               ∧ limit r = effective_limit row) as (r & Hr & Hlim).
  { destruct (down env CountUsage) eqn:Hc.
    - rewrite checkRateLimit_down by done. eauto.
    - rewrite checkRateLimit_up by done. eauto. }
  unfold authenticateTenant_admit.
  destruct (allowed r) eqn:Hallowed.
  - right. unfold bind at 1. rewrite Hr. cbn beta iota.
    rewrite Hallowed. cbn [negb]. unfold bind.
    destruct (logAPIUsage_store env
      (with_identity (tenant_of_key_row row) api_key (Some key) req) db)
      as (db' & -> & Hdb').
    eexists. split; [done|].
    destruct Hdb' as [->|(t & [= <-] & Hup & ->)]; [by left|by right].
  - left. unfold bind at 1. rewrite Hr. cbn beta iota.
    rewrite Hallowed. cbn [negb]. rewrite Hlim. by eexists.
Qed.

(** X2. Whenever [authenticateTenant] lets a request through, the
    identity it attached is that of a tenant of the store whose active
    flag is true, and the credential stands for that tenant: a token that
    verifies to the tenant's id, or the tenant's primary key, or the value
    of one of its secondary keys which has not expired. The tenants table
    is left as it was. *)
Theorem resolution_sound (env : Env) (req req' : Request) (db db' : DB) :
  authenticateTenant env req db = (Ok (Next req'), db') →
  ∃ cred info t,
    credential req = Some cred
    ∧ tenant req' = Some info
    ∧ t ∈ tenants db ∧ t_id t = id info ∧ t_is_active t = Some true
    ∧ tenants db' = tenants db
    ∧ if String.prefix "eyJ" cred
      then jwt_verify env cred = Some (t_id t) ∧ authMethod req' = Some jwt
      else authMethod req' = Some api_key
           ∧ (t_api_key t = cred
              ∨ ∃ ak, ak ∈ api_keys db ∧ ak_api_key ak = cred
                      ∧ ak_tenant_id ak = Some (t_id t)
                      ∧ ∀ e, ak_expires_at ak = Some e → now env ≤ e).
Proof.
  unfold authenticateTenant. unfold try_catch at 1.
  destruct (credential req) as [cred|] eqn:Hcred; [|by run].
  destruct (Js.truthy_str (Some cred)); cbn [negb]; [|by run].
  change (default "" (Some cred)) with cred.
  destruct (String.prefix "eyJ" cred) eqn:Hpre.
  - run. destruct (jwt_verify env cred) as [tid|] eqn:Hjwt; [|done].
    destruct (down env SelectTenantById); [done|].
    destruct (select_tenant_by_id tid db) as [|row rows] eqn:Hrows; [done|].
    intros [= <- <-].
    assert (row ∈ select_tenant_by_id tid db) as Hin
      by (rewrite Hrows; left).
    apply list_elem_of_filter in Hin as [Hw Hin].
    apply Is_true_true in Hw.
    rewrite holds_and3, andb_true_iff, holds_eq_str, holds_is_true in Hw.
    destruct Hw as [[= Hid] Hactive].
    exists cred, (tenant_of_row row), row. rewrite Hpre, Hid.
    by repeat split.
  - unfold bind at 1, pool_query at 1.
    destruct (down env SelectTenantByKey); [by run|].
    destruct (select_tenant_by_key cred db) as [|row rows] eqn:Hrows;
      [by run|].
    assert (row ∈ select_tenant_by_key cred db) as Hin
      by (rewrite Hrows; left).
    apply select_tenant_by_key_elem in Hin as (t & Ht & Hin).
    apply key_rows_of_sound in Hin as [Hactive Hrow].
    destruct (expired env row) eqn:Hexp; [by run|].
    assert (∀ dbu,
      (let (r, s') := authenticateTenant_admit env req cred row dbu in
       match r with
       | Ok a => (Ok a, s')
       | Throw => (Ok AuthenticationFailed, s')
       end) = (Ok (Next req'), db') →
      tenants dbu = tenants db →
      ∃ cred0 info t0,
        Some cred = Some cred0 ∧ tenant req' = Some info
        ∧ t0 ∈ tenants db ∧ t_id t0 = id info
        ∧ t_is_active t0 = Some true ∧ tenants db' = tenants db
        ∧ (if String.prefix "eyJ" cred0
           then jwt_verify env cred0 = Some (t_id t0)
                ∧ authMethod req' = Some jwt
           else authMethod req' = Some api_key
                ∧ (t_api_key t0 = cred0
                   ∨ ∃ ak, ak ∈ api_keys db ∧ ak_api_key ak = cred0
                           ∧ ak_tenant_id ak = Some (t_id t0)
                           ∧ ∀ e, ak_expires_at ak = Some e → now env ≤ e)))
      as Hadmit.
    { intros dbu Hrun Hten.
      destruct (authenticateTenant_admit_cases env req cred row dbu)
        as [(r & Hq)|(dbn & Hn & Hdbn)]; rewrite ?Hq, ?Hn in Hrun;
        [done|].
      injection Hrun as <- <-.
      exists cred, (tenant_of_key_row row), t. rewrite Hpre.
      assert (kr_tenant row = t) as Hkt
        by (destruct Hrow as [[-> _]|(ak & _ & _ & _ & ->)]; done).
      split; [done|]. split; [done|]. split; [done|].
      split; [by cbn; rewrite Hkt|]. split; [done|].
      split; [by destruct Hdbn as [->|[_ ->]]|].
      split; [done|].
      destruct Hrow as [[-> Hp]|(ak & Hak & Hk & Ho & ->)]; [by left|].
      right. exists ak. repeat split; try done.
      intros e He. unfold expired in Hexp. cbn in Hexp.
      rewrite He in Hexp. by apply Z.ltb_ge. }
    unfold bind at 1.
    destruct (Js.truthy_num (kr_api_key_rate_limit row)).
    + unfold pool_query at 1.
      destruct (down env UpdateKeyLastUsed); [by run|].
      intros Hrun. by apply (Hadmit _ Hrun).
    + unfold ret at 1. intros Hrun. by apply (Hadmit _ Hrun).
Qed.

Lemma resolution_sound_witness :
  admitted (authenticateTenant Sample.env0 (Sample.request "sk_live")
              Sample.db0) = true
  ∧ ∃ t, t ∈ tenants Sample.db0 ∧ t_is_active t = Some true
         ∧ ∃ ak, ak ∈ api_keys Sample.db0 ∧ ak_api_key ak = "sk_live"
                 ∧ ak_tenant_id ak = Some (t_id t).
Proof.
  split; [by vm_compute|].
  destruct (authenticateTenant Sample.env0 (Sample.request "sk_live")
              Sample.db0) as [[[req'|res]|] db'] eqn:Hrun;
    [|by vm_compute in Hrun..].
  destruct (resolution_sound _ _ _ _ _ Hrun)
    as (cred & info & t & Hcred & _ & Ht & _ & Hactive & _ & Hkind).
  injection Hcred as <-. change (String.prefix "eyJ" "sk_live") with false
    in Hkind.
  destruct Hkind as [_ [Hp|(ak & Hak & Hk & Ho & _)]].
  - apply list_elem_of_singleton in Ht as ->. discriminate Hp.
  - exists t. eauto 10.
Defined.

(** ** Credentials that do not resolve *)

(** X3. An opaque credential is answered 401 "Invalid API key", and the
    store is not touched, when no tenant whose active flag is true has it
    as primary key or owns a secondary key with that value: an unknown
    key, or a key of a tenant that is not active. *)
Theorem unknown_or_inactive_rejected (env : Env) (req : Request) (db : DB)
    (key : string) :
  credential req = Some key →
  key ≠ "" →
  String.prefix "eyJ" key = false →
  down env SelectTenantByKey = false →
  (∀ t, t ∈ tenants db → t_is_active t = Some true →
        t_api_key t ≠ key
        ∧ ∀ ak, ak ∈ api_keys db → ak_api_key ak = key →
                ak_tenant_id ak ≠ Some (t_id t)) →
  authenticateTenant env req db = (Ok InvalidCredential, db).
Proof.
  intros Hcred Hne Hpre Hup Hnone.
  rewrite (authenticateTenant_opaque env req db key) by done.
  destruct (select_tenant_by_key key db) as [|row rows] eqn:Hrows; [done|].
  assert (row ∈ select_tenant_by_key key db) as Hin
    by (rewrite Hrows; left).
  apply select_tenant_by_key_elem in Hin as (t & Ht & Hin).
  apply key_rows_of_sound in Hin as [Hactive Hrow].
  destruct (Hnone t Ht Hactive) as [Hp Hs].
  destruct Hrow as [[_ ?]|(ak & Hak & Hk & Ho & _)]; [done|].
  by destruct (Hs ak Hak Hk).
Qed.

Lemma unknown_or_inactive_rejected_witness :
  let db := {| tenants :=
                 [ {| t_id := "tenant-T"; t_name := "T"; t_subdomain := "t";
                      t_api_key := "pk_T"; t_plan := Some basic;
                      t_max_endpoints := Some 10;
                      t_max_requests_per_day := Some 2;
                      t_is_active := Some false |} ];
               api_keys := [Sample.sk_live]; api_usage_logs := [];
               realtime_connections := [] |} in
  credential (Sample.request "sk_live") = Some "sk_live"
  ∧ authenticateTenant Sample.env0 (Sample.request "sk_live") db
    = (Ok InvalidCredential, db)
  ∧ authenticateTenant Sample.env0 (Sample.request "pk_T") db
    = (Ok InvalidCredential, db).
Proof.
  intros db. split; [reflexivity|].
  split.
  - apply (unknown_or_inactive_rejected _ _ _ "sk_live"); try done.
    by intros t ->%list_elem_of_singleton.
  - apply (unknown_or_inactive_rejected _ _ _ "pk_T"); try done.
    by intros t ->%list_elem_of_singleton.
Defined.

(** X4. A credential with the token prefix is answered 401 "Invalid
    token" when it does not verify, when the tenant lookup fails, and
    when no tenant with the decoded id has its active flag true; the
    store is never touched. A store failure on this path is reported as
    an invalid token, not as a server error. *)
Theorem token_rejections (env : Env) (req : Request) (db : DB)
    (cred : string) :
  credential req = Some cred →
  String.prefix "eyJ" cred = true →
  (jwt_verify env cred = None →
   authenticateTenant env req db = (Ok InvalidToken, db))
  ∧ (down env SelectTenantById = true →
     authenticateTenant env req db = (Ok InvalidToken, db))
  ∧ (∀ tid, jwt_verify env cred = Some tid →
       down env SelectTenantById = false →
       (∀ t, t ∈ tenants db → t_id t = tid → t_is_active t ≠ Some true) →
       authenticateTenant env req db = (Ok InvalidToken_inactive, db)).
Proof.
  intros Hcred Hpre. unfold authenticateTenant. rewrite Hcred.
  change (default "" (Some cred)) with cred.
  assert (Js.truthy_str (Some cred) = true) as ->.
  { destruct cred; [discriminate Hpre|reflexivity]. }
  rewrite Hpre. cbn [negb]. run. split; [|split].
  - by intros ->.
  - intros ->. by destruct (jwt_verify env cred).
  - intros tid -> -> Hnone.
    destruct (select_tenant_by_id tid db) as [|row rows] eqn:Hrows; [done|].
    assert (row ∈ select_tenant_by_id tid db) as Hin
      by (rewrite Hrows; left).
    apply list_elem_of_filter in Hin as [Hw Hin].
    apply Is_true_true in Hw.
    rewrite holds_and3, andb_true_iff, holds_eq_str, holds_is_true in Hw.
    destruct Hw as [[= Hid] Hactive]. by destruct (Hnone row Hin Hid).
Qed.

Lemma token_rejections_witness :
  credential (Sample.request "eyJ.forged") = Some "eyJ.forged"
  ∧ String.prefix "eyJ" "eyJ.forged" = true
  ∧ jwt_verify Sample.env0 "eyJ.forged" = None
  ∧ authenticateTenant Sample.env0 (Sample.request "eyJ.forged")
      Sample.db_full
    = (Ok InvalidToken, Sample.db_full).
Proof.
  split; [reflexivity|]. split; [reflexivity|]. split; [reflexivity|].
  destruct (token_rejections Sample.env0 (Sample.request "eyJ.forged")
              Sample.db_full "eyJ.forged" eq_refl eq_refl) as (Hforged & _).
  by apply Hforged.
Defined.

(** A failing key lookup is reported as a server error. *)
Lemma authenticateTenant_lookup_down (env : Env) (req : Request) (db : DB)
    (key : string) :
  credential req = Some key →
  key ≠ "" →
  String.prefix "eyJ" key = false →
  down env SelectTenantByKey = true →
  authenticateTenant env req db = (Ok AuthenticationFailed, db).
Proof.
  intros Hcred Hne Hpre Hdown. unfold authenticateTenant.
  rewrite Hcred. change (default "" (Some key)) with key.
  assert (Js.truthy_str (Some key) = true) as ->.
  { cbn. by destruct (String.eqb_spec key "") as [->|]. }
  rewrite Hpre. cbn [negb]. run. by rewrite Hdown.
Qed.

(** X5. No exception escapes [authenticateTenant]: every run ends in a
    response or in [next()]. When the key lookup fails the answer is 500
    "Authentication failed" and the store is not touched. *)
Theorem store_failure_answers (env : Env) (req : Request) (db : DB) :
  (∃ o db', authenticateTenant env req db = (Ok o, db'))
  ∧ (∀ key, credential req = Some key → key ≠ "" →
       String.prefix "eyJ" key = false →
       down env SelectTenantByKey = true →
       authenticateTenant env req db = (Ok AuthenticationFailed, db)).
Proof.
  split.
  - unfold authenticateTenant. unfold try_catch at 1.
    destruct (Js.truthy_str (credential req)); cbn [negb]; [|run; eauto].
    destruct (String.prefix "eyJ" (default "" (credential req))).
    + run. destruct (jwt_verify env _); [|eauto].
      destruct (down env SelectTenantById); [eauto|].
      destruct (select_tenant_by_id _ db); eauto.
    + unfold bind at 1, pool_query at 1.
      destruct (down env SelectTenantByKey); [run; eauto|].
      destruct (select_tenant_by_key _ db) as [|row rows]; [run; eauto|].
      destruct (expired env row); [run; eauto|].
      unfold bind at 1.
      destruct (Js.truthy_num (kr_api_key_rate_limit row)).
      * unfold pool_query at 1.
        destruct (down env UpdateKeyLastUsed); [run; eauto|].
        destruct (authenticateTenant_admit_returns env req
                    (default "" (credential req)) row
                    (update_key_last_used (now env)
                       (default "" (credential req)) db))
          as (o & db' & ->).
        eauto.
      * unfold ret at 1.
        destruct (authenticateTenant_admit_returns env req
                    (default "" (credential req)) row db)
          as (o & db' & ->).
        eauto.
  - intros key. apply authenticateTenant_lookup_down.
Qed.

Lemma store_failure_answers_witness :
  let env := Sample.env_with Sample.t0 (λ _, true) in
  credential (Sample.request "pk_T") = Some "pk_T"
  ∧ down env SelectTenantByKey = true
  ∧ authenticateTenant env (Sample.request "pk_T") Sample.db0
    = (Ok AuthenticationFailed, Sample.db0).
Proof.
  intros env. split; [reflexivity|]. split; [reflexivity|].
  destruct (store_failure_answers env (Sample.request "pk_T") Sample.db0)
    as [_ Hfail].
  by apply (Hfail "pk_T").
Defined.

(** ** The last part of authenticateTenant, in one equation *)

Lemma authenticateTenant_admit_eq (env : Env) (req : Request) (key : string)
    (row : KeyRow) (db : DB) :
  authenticateTenant_admit env req key row db
  = let lim := effective_limit row in
    let tid := t_id (kr_tenant row) in
    let req' := with_startTime (now env)
                  (with_identity (tenant_of_key_row row) api_key (Some key)
                     req) in
    if down env CountUsage
       || Js.lt_num (count_usage tid (today (now env)) db) lim
    then (Ok (Next req'),
          if down env InsertUsage then db
          else insert_usage (usage_row (now env) tid req') db)
    else (Ok (QuotaExceeded lim (Some (now env + DAY_MS))), db).
Proof.
  unfold authenticateTenant_admit. unfold bind at 1.
  destruct (down env CountUsage) eqn:Hc; cbn [orb].
  - rewrite checkRateLimit_down by done. cbn.
    unfold logAPIUsage. run. cbn.
    by destruct (down env InsertUsage).
  - rewrite checkRateLimit_up by done. cbn.
    destruct (Js.lt_num _ _); cbn; [|done].
    unfold logAPIUsage. run. cbn.
    by destruct (down env InsertUsage).
Qed.

(** [authenticateTenant] on an opaque key whose lookup gave [row] first
    and which has not expired. *)
Lemma authenticateTenant_key_eq (env : Env) (req : Request) (db : DB)
    (key : string) (row : KeyRow) (rows : list KeyRow) :
  credential req = Some key →
  key ≠ "" →
  String.prefix "eyJ" key = false →
  down env SelectTenantByKey = false →
  select_tenant_by_key key db = row :: rows →
  expired env row = false →
  authenticateTenant env req db
  = if Js.truthy_num (kr_api_key_rate_limit row)
    then if down env UpdateKeyLastUsed
         then (Ok AuthenticationFailed, db)
         else authenticateTenant_admit env req key row
                (update_key_last_used (now env) key db)
    else authenticateTenant_admit env req key row db.
Proof.
  intros Hcred Hne Hpre Hup Hrows Hexp.
  rewrite (authenticateTenant_opaque env req db key) by done.
  rewrite Hrows, Hexp. unfold try_catch, bind at 1.
  destruct (Js.truthy_num (kr_api_key_rate_limit row)).
  - unfold pool_query. destruct (down env UpdateKeyLastUsed); [done|].
    by destruct (authenticateTenant_admit_returns env req key row
                   (update_key_last_used (now env) key db))
      as (o & db' & ->).
  - unfold ret at 1.
    by destruct (authenticateTenant_admit_returns env req key row db)
      as (o & db' & ->).
Qed.

(** ** Resolution through the primary key *)

Section PrimaryKey.

Variables (db : DB) (key : string) (t : Tenant).

Hypothesis Hunique : NoDup (t_api_key <$> tenants db).
Hypothesis Ht : t ∈ tenants db.
Hypothesis Hkey : t_api_key t = key.
Hypothesis Hactive : t_is_active t = Some true.
Hypothesis Hnokey : ∀ ak, ak ∈ api_keys db → ak_api_key ak ≠ key.

Lemma key_rows_of_primary : unjoined t ∈ key_rows_of key (api_keys db) t.
Proof.
  unfold key_rows_of.
  destruct (filter (λ a, join_on key t a) (api_keys db)) as [|a m] eqn:Hm.
  - assert (key_where key t None = true) as -> by by apply key_where_unjoined.
    by left.
  - assert (a ∈ filter (λ a, join_on key t a) (api_keys db)) as Hin
      by (rewrite Hm; left).
    apply list_elem_of_filter in Hin as [Hj Hin].
    apply Is_true_true, join_on_spec in Hj as [_ Hk].
    by destruct (Hnokey a Hin).
Qed.

Lemma select_tenant_by_key_primary :
  ∃ rows, select_tenant_by_key key db = unjoined t :: rows.
Proof.
  assert (unjoined t ∈ select_tenant_by_key key db) as Hin.
  { apply select_tenant_by_key_elem. eauto using key_rows_of_primary. }
  destruct (select_tenant_by_key key db) as [|r rows] eqn:Hrows;
    [by apply elem_of_nil in Hin|].
  assert (r ∈ select_tenant_by_key key db) as Hr
    by (rewrite Hrows; left).
  apply select_tenant_by_key_elem in Hr as (t' & Ht' & Hr).
  apply key_rows_of_sound in Hr as [_ [[-> Hp]|(ak & Hak & Hk & _)]].
  - assert (t' = t) as ->; [|eauto].
    eapply (NoDup_fmap_eq t_api_key); [done..|]. by rewrite Hp.
  - by destruct (Hnokey ak Hak).
Qed.

End PrimaryKey.

(** X6. A credential that is the primary key of an active tenant, and
    the value of no secondary key, resolves to that tenant with an empty
    permission set and the tenant's own daily quota as rate limit. The
    request is let through when the count query fails or the count is
    below the quota, and answered 429 with that quota otherwise. No key
    row is written on this path, whether or not the update of
    [last_used_at] would have succeeded. *)
Theorem primary_key_identity (env : Env) (req : Request) (db : DB)
    (key : string) (t : Tenant) :
  credential req = Some key →
  key ≠ "" →
  String.prefix "eyJ" key = false →
  down env SelectTenantByKey = false →
  NoDup (t_api_key <$> tenants db) →
  t ∈ tenants db →
  t_api_key t = key →
  t_is_active t = Some true →
  (∀ ak, ak ∈ api_keys db → ak_api_key ak ≠ key) →
  let info := {| id := t_id t; name := t_name t;
                 subdomain := t_subdomain t; plan := t_plan t;
                 max_endpoints := t_max_endpoints t;
                 max_requests_per_day := t_max_requests_per_day t;
                 permissions := Some ∅;
                 rate_limit := t_max_requests_per_day t |} in
  let n := count_usage (t_id t) (today (now env)) db in
  (down env CountUsage = true
   ∨ Js.lt_num n (t_max_requests_per_day t) = true →
   ∃ req' db', authenticateTenant env req db = (Ok (Next req'), db')
               ∧ tenant req' = Some info
               ∧ authMethod req' = Some api_key
               ∧ apiKey req' = Some key
               ∧ api_keys db' = api_keys db)
  ∧ (down env CountUsage = false →
     Js.lt_num n (t_max_requests_per_day t) = false →
     authenticateTenant env req db
     = (Ok (QuotaExceeded (t_max_requests_per_day t)
              (Some (now env + DAY_MS))), db)).
Proof.
  intros Hcred Hne Hpre Hup Hunique Ht Hkey Hactive Hnokey info n.
  destruct (select_tenant_by_key_primary db key t) as [rows Hrows];
    [done..|].
  rewrite (authenticateTenant_key_eq env req db key (unjoined t) rows)
    by done.
  cbn [kr_api_key_rate_limit unjoined Js.truthy_num].
  rewrite authenticateTenant_admit_eq.
  cbn [kr_tenant unjoined]. cbn zeta.
  change (effective_limit (unjoined t)) with (t_max_requests_per_day t).
  fold n. split.
  - intros Hok.
    assert (down env CountUsage
            || Js.lt_num n (t_max_requests_per_day t) = true) as ->.
    { apply orb_true_iff. done. }
    eexists _, _. split; [done|]. repeat split.
    by destruct (down env InsertUsage).
  - by intros -> ->.
Qed.

Lemma primary_key_identity_witness :
  credential (Sample.request "pk_T") = Some "pk_T"
  ∧ t_api_key Sample.T = "pk_T"
  ∧ authenticateTenant Sample.env0 (Sample.request "pk_T") Sample.db_full
    = (Ok (QuotaExceeded (Some 2) (Some (Sample.t0 + DAY_MS))),
       Sample.db_full).
Proof.
  split; [reflexivity|]. split; [reflexivity|].
  assert (∀ ak, ak ∈ api_keys Sample.db_full → ak_api_key ak ≠ "pk_T")
    as Hnokey.
  { intros ak Hak.
    repeat (apply elem_of_cons in Hak as [->|Hak]; [done|]).
    by apply elem_of_nil in Hak. }
  assert (Sample.T ∈ tenants Sample.db_full) as Ht by left.
  assert (NoDup (t_api_key <$> tenants Sample.db_full)) as Hnd
    by apply NoDup_singleton.
  assert ("pk_T" ≠ "") as Hne by done.
  destruct (primary_key_identity Sample.env0 (Sample.request "pk_T")
              Sample.db_full "pk_T" Sample.T eq_refl Hne eq_refl eq_refl
              Hnd Ht eq_refl eq_refl Hnokey) as [_ Hfull].
  by apply Hfull.
Defined.

(** How a request gets through [authenticateTenant]. *)
Lemma authenticateTenant_next_inv (env : Env) (req req' : Request)
    (db db' : DB) :
  authenticateTenant env req db = (Ok (Next req'), db') →
  ∃ cred,
    credential req = Some cred ∧ cred ≠ ""
    ∧ if String.prefix "eyJ" cred
      then ∃ tid row rows,
             jwt_verify env cred = Some tid
             ∧ select_tenant_by_id tid db = row :: rows
             ∧ req' = with_identity (tenant_of_row row) jwt (apiKey req) req
             ∧ db' = db
      else ∃ row rows,
             select_tenant_by_key cred db = row :: rows
             ∧ expired env row = false
             ∧ (Js.truthy_num (kr_api_key_rate_limit row) = true →
                down env UpdateKeyLastUsed = false)
             ∧ authenticateTenant_admit env req cred row
                 (if Js.truthy_num (kr_api_key_rate_limit row)
                  then update_key_last_used (now env) cred db else db)
               = (Ok (Next req'), db').
Proof.
  intros Hrun.
  assert (∃ cred, credential req = Some cred ∧ cred ≠ "")
    as (cred & Hcred & Hne).
  { revert Hrun. unfold authenticateTenant. unfold try_catch at 1.
    destruct (credential req) as [cred|]; [|by run].
    exists cred. split; [done|]. intros ->. by revert Hrun; run. }
  exists cred. split; [done|]. split; [done|].
  destruct (String.prefix "eyJ" cred) eqn:Hpre.
  - revert Hrun. unfold authenticateTenant. rewrite Hcred.
    change (default "" (Some cred)) with cred.
    assert (Js.truthy_str (Some cred) = true) as ->.
    { cbn. by destruct (String.eqb_spec cred "") as [->|]. }
    rewrite Hpre. cbn [negb]. run.
    destruct (jwt_verify env cred) as [tid|]; [|done].
    destruct (down env SelectTenantById); [done|].
    destruct (select_tenant_by_id tid db) as [|row rows] eqn:Hrows;
      [done|].
    intros [= <- <-]. by exists tid, row, rows.
  - destruct (down env SelectTenantByKey) eqn:Hup.
    { by rewrite (authenticateTenant_lookup_down env req db cred) in Hrun. }
    destruct (select_tenant_by_key cred db) as [|row rows] eqn:Hrows.
    { rewrite (authenticateTenant_opaque env req db cred), Hrows in Hrun
        by done. done. }
    destruct (expired env row) eqn:Hexp.
    { rewrite (authenticateTenant_opaque env req db cred), Hrows, Hexp
        in Hrun by done. done. }
    rewrite (authenticateTenant_key_eq env req db cred row rows) in Hrun
      by done.
    exists row, rows. split; [done|]. split; [done|].
    destruct (Js.truthy_num (kr_api_key_rate_limit row)).
    + destruct (down env UpdateKeyLastUsed); [done|]. by split.
    + by split.
Qed.

(** ** Permissions come from secondary keys only *)

Lemma grants_nothing (info : TenantInfo) (permission : string) :
  default ∅ (permissions info) = ∅ →
  permission ∉ Js.Object_prototype →
  grants info permission = false.
Proof.
  intros Hempty Hown. unfold grants, Js.get. rewrite Hempty, lookup_empty.
  by rewrite bool_decide_eq_false_2.
Qed.

(** X7. A request let through on a credential that is no secondary key
    (a session token or a primary key) carries no permission: the
    permission check that follows passes on the enterprise plan only, and
    answers 403 for every capability name that objects do not inherit. *)
Theorem gate_without_secondary_key (env : Env) (req req' : Request)
    (db db' : DB) (permission : string) :
  authenticateTenant env req db = (Ok (Next req'), db') →
  (∀ ak, ak ∈ api_keys db → credential req ≠ Some (ak_api_key ak)) →
  permission ∉ Js.Object_prototype →
  ∃ info, tenant req' = Some info
          ∧ requirePermission permission req'
            = if bool_decide (plan info = Some enterprise)
              then Next req' else PermissionDenied permission.
Proof.
  intros Hrun Hnokey Hown.
  assert (∃ info, tenant req' = Some info
                  ∧ default ∅ (permissions info) = ∅) as (info & Hinfo & Hp).
  { destruct (authenticateTenant_next_inv env req req' db db' Hrun)
      as (cred & Hcred & Hne & Hkind).
    destruct (String.prefix "eyJ" cred).
    - destruct Hkind as (tid & row & rows & _ & _ & -> & _). by eexists.
    - destruct Hkind as (row & rows & Hrows & _ & _ & Hadmit).
      rewrite authenticateTenant_admit_eq in Hadmit. cbn zeta in Hadmit.
      destruct (_ || _) in Hadmit; [|done]. injection Hadmit as <- _.
      eexists. split; [done|]. cbn.
      assert (row ∈ select_tenant_by_key cred db) as Hin
        by (rewrite Hrows; left).
      apply select_tenant_by_key_elem in Hin as (t & Ht & Hin).
      apply key_rows_of_sound in Hin
        as [_ [[-> _]|(ak & Hak & Hk & _)]]; [done|].
      destruct (Hnokey ak Hak). by rewrite Hcred, Hk. }
  exists info. split; [done|]. unfold requirePermission. rewrite Hinfo.
  rewrite grants_nothing by done. cbn [negb andb].
  by case_bool_decide.
Qed.

Lemma gate_without_secondary_key_witness :
  let req' := with_identity (tenant_of_row Sample.T) jwt None
                (Sample.request Sample.token) in
  authenticateTenant Sample.env0 (Sample.request Sample.token) Sample.db0
  = (Ok (Next req'), Sample.db0)
  ∧ requirePermission "read" req' = PermissionDenied "read".
Proof.
  intros req'.
  assert (authenticateTenant Sample.env0 (Sample.request Sample.token)
            Sample.db0 = (Ok (Next req'), Sample.db0)) as Hrun
    by by vm_compute.
  split; [exact Hrun|].
  destruct (gate_without_secondary_key Sample.env0
              (Sample.request Sample.token) req' Sample.db0 Sample.db0
              "read" Hrun) as (info & Hinfo & Hgate).
  - intros ak Hak.
    repeat (apply elem_of_cons in Hak as [->|Hak]; [done|]).
    by apply elem_of_nil in Hak.
  - apply (bool_decide_unpack _). by vm_compute.
  - rewrite Hgate. injection Hinfo as <-. reflexivity.
Defined.

(** ** The usage record *)

Lemma today_le (ts : Z) : today ts ≤ ts.
Proof. unfold today, DAY_MS. Z.div_mod_to_equations. lia. Qed.

Lemma count_usage_insert (tid : string) (since : Z) (u : UsageLog)
    (db : DB) :
  count_usage tid since (insert_usage u db)
  = count_usage tid since db
    + if Sql.holds (Sql.and3 (Sql.eq_str (ul_tenant_id u) (Some tid))
                             (Sql.ge_ts (ul_created_at u) (Some since)))
      then 1 else 0.
Proof.
  unfold count_usage, insert_usage. cbn [api_usage_logs with_api_usage_logs].
  rewrite filter_app, length_app, Nat2Z.inj_add. f_equal.
  rewrite filter_cons, filter_nil.
  destruct (Sql.holds _); by case_decide.
Qed.

(** The record of a request counts for the day of the request. *)
Lemma count_usage_own_row (ts : Z) (tid : string) (req : Request) (db : DB) :
  count_usage tid (today ts) (insert_usage (usage_row ts tid req) db)
  = count_usage tid (today ts) db + 1.
Proof.
  rewrite count_usage_insert. f_equal.
  cbn [ul_tenant_id ul_created_at usage_row]. rewrite holds_and3.
  assert (Sql.holds (Sql.eq_str (Some tid) (Some tid)) = true) as ->
    by by apply holds_eq_str.
  cbn. pose proof (today_le ts) as Hle.
  apply Z.leb_le in Hle. by rewrite Hle.
Qed.

(** X8. What the last part of [authenticateTenant] leaves in the store.
    A rejected request records nothing. A request that is let through
    appends exactly one usage record, for the resolved tenant, created at
    the time of the request and without a response status; today's count
    of the tenant grows by one. When the insert fails the request is let
    through all the same, and nothing is recorded. *)
Theorem usage_recorded (env : Env) (req : Request) (key : string)
    (row : KeyRow) (db : DB) :
  let r := authenticateTenant_admit env req key row db in
  let tid := t_id (kr_tenant row) in
  (admitted r = false → snd r = db)
  ∧ (admitted r = true → down env InsertUsage = true → snd r = db)
  ∧ (admitted r = true → down env InsertUsage = false →
     ∃ u, api_usage_logs (snd r) = (api_usage_logs db ++ [u])%list
          ∧ ul_tenant_id u = Some tid
          ∧ ul_created_at u = Some (now env)
          ∧ ul_request_method u = method req
          ∧ ul_request_path u = path req
          ∧ ul_response_status u = None
          ∧ count_usage tid (today (now env)) (snd r)
            = count_usage tid (today (now env)) db + 1
          ∧ tenants (snd r) = tenants db
          ∧ api_keys (snd r) = api_keys db
          ∧ realtime_connections (snd r) = realtime_connections db).
Proof.
  intros r tid. subst r. rewrite authenticateTenant_admit_eq. cbn zeta.
  fold tid. destruct (_ || _); cbn [admitted snd]; split; try done.
  split; [by intros _ ->|]. intros _ ->.
  eexists. split; [reflexivity|]. repeat split.
  apply count_usage_own_row.
Qed.

Lemma usage_recorded_witness :
  let r := authenticateTenant_admit Sample.env0 (Sample.request "pk_T")
             "pk_T" (unjoined Sample.T) Sample.db0 in
  admitted r = true
  ∧ down Sample.env0 InsertUsage = false
  ∧ count_usage "tenant-T" (today Sample.t0) (snd r) = 1.
Proof.
  intros r. split; [by vm_compute|]. split; [reflexivity|].
  destruct (usage_recorded Sample.env0 (Sample.request "pk_T") "pk_T"
              (unjoined Sample.T) Sample.db0) as (_ & _ & Hrec).
  destruct Hrec as (u & _ & _ & _ & _ & _ & _ & Hcount & _);
    [by vm_compute|reflexivity|].
  exact Hcount.
Defined.

Lemma substring_prefix (n : nat) (s : string) :
  String.prefix (String.substring 0 n s) s = true.
Proof.
  revert n. induction s as [|c s IH]; intros [|n]; cbn; try done.
  destruct (Ascii.ascii_dec c c); [apply IH|congruence].
Qed.

Lemma substring_length (n : nat) (s : string) :
  String.length (String.substring 0 n s) = (n `min` String.length s)%nat.
Proof.
  revert n. induction s as [|c s IH]; intros [|n]; cbn; try done.
  by rewrite IH.
Qed.

Lemma length_append (a b : string) :
  String.length (a +:+ b) = (String.length a + String.length b)%nat.
Proof.
  induction a as [|c a IH]; [done|]. rewrite append_cons. cbn. by rewrite IH.
Qed.

(** X9. The usage record keeps, of the credential of the request, its
    first ten characters (all of it when it is shorter) followed by
    three dots. The stored value depends on those ten characters only,
    and a key of more than thirteen characters is not contained in it.
    A shorter key can be: the key "abcdefghij..." is stored whole. *)
Theorem usage_fingerprint (ts : Z) (tid : string) (req : Request)
    (k : string) :
  apiKey req = Some k →
  let f := ul_api_key_used (usage_row ts tid req) in
  (∃ p, f = p +:+ "..."
        ∧ String.prefix p k = true
        ∧ String.length p = (10 `min` String.length k)%nat)
  ∧ String.length f = (10 `min` String.length k + 3)%nat
  ∧ ((13 < String.length k)%nat → ∀ a b, f ≠ a +:+ k +:+ b)
  ∧ (∀ req' k', apiKey req' = Some k' →
                String.substring 0 10 k' = String.substring 0 10 k →
                ul_api_key_used (usage_row ts tid req') = f)
  ∧ (k = "abcdefghij..." → f = k).
Proof.
  intros Hk f.
  assert (f = String.substring 0 10 k +:+ "...") as Hf.
  { subst f. cbn [ul_api_key_used usage_row]. by rewrite Hk. }
  assert (String.length f = (10 `min` String.length k + 3)%nat) as Hlen.
  { by rewrite Hf, length_append, substring_length. }
  split; [|split; [|split; [|split]]].
  - exists (String.substring 0 10 k).
    split; [done|]. split; [apply substring_prefix|apply substring_length].
  - done.
  - intros Hlong a b Heq. apply (f_equal String.length) in Heq.
    rewrite Hlen, !length_append in Heq. lia.
  - intros req' k' Hk' Hsame. rewrite Hf.
    cbn [ul_api_key_used usage_row]. by rewrite Hk', Hsame.
  - intros ->. by rewrite Hf.
Qed.

Lemma usage_fingerprint_witness :
  let key := "api_demo_12345678901234567890" in
  let req := with_identity (tenant_of_key_row (unjoined Sample.T)) api_key
               (Some key) (Sample.request key) in
  let dots := with_identity (tenant_of_key_row (unjoined Sample.T)) api_key
                (Some "abcdefghij...") (Sample.request "abcdefghij...") in
  apiKey req = Some key
  ∧ String.length (ul_api_key_used (usage_row Sample.t0 "tenant-T" req))
    = 13%nat
  ∧ (∀ a b, ul_api_key_used (usage_row Sample.t0 "tenant-T" req)
            ≠ a +:+ key +:+ b)
  ∧ apiKey dots = Some "abcdefghij..."
  ∧ ul_api_key_used (usage_row Sample.t0 "tenant-T" dots) = "abcdefghij...".
Proof.
  intros key req dots. split; [reflexivity|].
  destruct (usage_fingerprint Sample.t0 "tenant-T" req key eq_refl)
    as (_ & Hlen & Hout & _).
  destruct (usage_fingerprint Sample.t0 "tenant-T" dots "abcdefghij..."
              eq_refl) as (_ & _ & _ & _ & Hwhole).
  split; [exact Hlen|]. split; [apply Hout; cbn; lia|].
  split; [reflexivity|]. by apply Hwhole.
Defined.

(** ** Limits that let nothing through *)

Lemma count_usage_nonneg (tid : string) (since : Z) (db : DB) :
  0 ≤ count_usage tid since db.
Proof. unfold count_usage. lia. Qed.

(** X10. A resolved row whose effective limit is missing (neither the
    key nor the tenant has one), zero or negative lets no request
    through while the count query answers: every request is answered 429
    and nothing is recorded. *)
Theorem no_positive_limit (env : Env) (req : Request) (key : string)
    (row : KeyRow) (db : DB) :
  down env CountUsage = false →
  (effective_limit row = None
   ∨ ∃ L, effective_limit row = Some L ∧ L ≤ 0) →
  authenticateTenant_admit env req key row db
  = (Ok (QuotaExceeded (effective_limit row) (Some (now env + DAY_MS))),
     db).
Proof.
  intros Hup Hlim. rewrite authenticateTenant_admit_eq. cbn zeta.
  rewrite Hup. cbn [orb].
  pose proof (count_usage_nonneg (t_id (kr_tenant row)) (today (now env))
                db) as Hn.
  assert (Js.lt_num (count_usage (t_id (kr_tenant row)) (today (now env))
                       db) (effective_limit row) = false) as ->; [|done].
  destruct Hlim as [->|(L & -> & HL)]; cbn; apply Z.ltb_ge; lia.
Qed.

Lemma no_positive_limit_witness :
  let row := {| kr_tenant := Sample.T; kr_permissions := None;
                kr_api_key_rate_limit := Some (-1);
                kr_expires_at := None |} in
  down Sample.env0 CountUsage = false
  ∧ effective_limit row = Some (-1)
  ∧ authenticateTenant_admit Sample.env0 (Sample.request "sk") "sk" row
      Sample.db0
    = (Ok (QuotaExceeded (Some (-1)) (Some (Sample.t0 + DAY_MS))),
       Sample.db0).
Proof.
  intros row. split; [reflexivity|]. split; [reflexivity|].
  apply (no_positive_limit Sample.env0 (Sample.request "sk") "sk" row
           Sample.db0 eq_refl).
  right. exists (-1). split; [reflexivity|lia].
Defined.

(** ** The last-used stamp *)

Lemma authenticateTenant_admit_frame (env : Env) (req : Request)
    (key : string) (row : KeyRow) (db : DB) :
  tenants (snd (authenticateTenant_admit env req key row db)) = tenants db
  ∧ api_keys (snd (authenticateTenant_admit env req key row db))
    = api_keys db
  ∧ realtime_connections (snd (authenticateTenant_admit env req key row db))
    = realtime_connections db.
Proof.
  rewrite authenticateTenant_admit_eq. cbn zeta.
  destruct (_ || _); [|done]. by destruct (down env InsertUsage).
Qed.

(** X11. When a request resolves through a secondary key whose rate
    limit is set and not zero, the key's [last_used_at] is set to the time
    of the request before the quota is looked at, so also when the request
    is then answered 429; no other key row changes. A secondary key whose
    rate limit is NULL or zero is never stamped: it resolves with the
    tenant's daily quota, and its row is left as it was even when the
    update would have failed. *)
Theorem last_used_stamp (env : Env) (req : Request) (db : DB)
    (key : string) (t : Tenant) (ak : ApiKey) :
  credential req = Some key →
  key ≠ "" →
  String.prefix "eyJ" key = false →
  down env SelectTenantByKey = false →
  unique_api_keys db →
  ak ∈ api_keys db →
  ak_api_key ak = key →
  ak_tenant_id ak = Some (t_id t) →
  t ∈ tenants db →
  t_is_active t = Some true →
  (∀ t', t' ∈ tenants db → t_api_key t' = key → t_id t' = t_id t) →
  (∀ e, ak_expires_at ak = Some e → now env ≤ e) →
  let db' := snd (authenticateTenant env req db) in
  (Js.truthy_num (ak_rate_limit ak) = true →
   down env UpdateKeyLastUsed = false →
   {| ak_tenant_id := ak_tenant_id ak; ak_key_name := ak_key_name ak;
      ak_api_key := ak_api_key ak; ak_permissions := ak_permissions ak;
      ak_rate_limit := ak_rate_limit ak; ak_is_active := ak_is_active ak;
      ak_expires_at := ak_expires_at ak;
      ak_last_used_at := Some (now env) |} ∈ api_keys db'
   ∧ ∀ a, a ∈ api_keys db → ak_api_key a ≠ key → a ∈ api_keys db')
  ∧ (Js.truthy_num (ak_rate_limit ak) = false →
     api_keys db' = api_keys db
     ∧ ∃ t', t_id t' = t_id t
             ∧ effective_limit (joined t' ak) = t_max_requests_per_day t'
             ∧ authenticateTenant env req db
               = authenticateTenant_admit env req key (joined t' ak) db).
Proof.
  intros Hcred Hne Hpre Hup Hunique Hak Hkey Howner Ht Hactive Hprimary
    Hexp db'.
  destruct (select_tenant_by_key_secondary db key t ak)
    as (t' & rows & Hrows & Ht' & Hid); [done..|].
  assert (expired env (joined t' ak) = false) as Hfresh.
  { unfold expired. cbn. destruct (ak_expires_at ak) as [e|]; [|done].
    apply Z.ltb_ge. by apply Hexp. }
  assert (authenticateTenant env req db
          = if Js.truthy_num (ak_rate_limit ak)
            then if down env UpdateKeyLastUsed
                 then (Ok AuthenticationFailed, db)
                 else authenticateTenant_admit env req key (joined t' ak)
                        (update_key_last_used (now env) key db)
            else authenticateTenant_admit env req key (joined t' ak) db)
    as Heq
    by by rewrite (authenticateTenant_key_eq env req db key (joined t' ak)
                     rows).
  subst db'. rewrite Heq. split.
  - intros -> ->.
    destruct (authenticateTenant_admit_frame env req key (joined t' ak)
                (update_key_last_used (now env) key db)) as (_ & -> & _).
    cbn [api_keys update_key_last_used with_api_keys]. split.
    + apply list_elem_of_fmap. exists ak. split; [|done].
      rewrite Hkey. by rewrite String.eqb_refl.
    + intros a Ha Hother. apply list_elem_of_fmap. exists a.
      split; [|done]. by destruct (String.eqb_spec (ak_api_key a) key).
  - intros Hzero. rewrite Hzero.
    destruct (authenticateTenant_admit_frame env req key (joined t' ak) db)
      as (_ & -> & _).
    split; [done|]. exists t'. split; [done|]. split; [|done].
    unfold effective_limit, Js.or_num. cbn [kr_api_key_rate_limit joined].
    by rewrite Hzero.
Qed.

Lemma last_used_stamp_witness :
  let db' := snd (authenticateTenant Sample.env0
                    (Sample.request "sk_live") Sample.db0) in
  Js.truthy_num (ak_rate_limit Sample.sk_live) = true
  ∧ ak_last_used_at Sample.sk_live = None
  ∧ Sample.secondary "sk_live" Sample.can_read (Some 100) (Some true) None
    ∈ api_keys Sample.db0
  ∧ {| ak_tenant_id := Some "tenant-T"; ak_key_name := "secondary";
       ak_api_key := "sk_live"; ak_permissions := Some Sample.can_read;
       ak_rate_limit := Some 100; ak_is_active := Some true;
       ak_expires_at := None;
       ak_last_used_at := Some Sample.t0 |} ∈ api_keys db'.
Proof.
  intros db'. split; [reflexivity|]. split; [reflexivity|].
  assert (Sample.sk_live ∈ api_keys Sample.db0) as Hak by left.
  split; [exact Hak|].
  assert (Sample.T ∈ tenants Sample.db0) as Ht by left.
  assert (unique_api_keys Sample.db0) as Hnd
    by (apply (bool_decide_unpack _); by vm_compute).
  assert ("sk_live" ≠ "") as Hne by done.
  destruct (last_used_stamp Sample.env0 (Sample.request "sk_live")
              Sample.db0 "sk_live" Sample.T Sample.sk_live
              eq_refl Hne eq_refl eq_refl Hnd Hak eq_refl eq_refl Ht
              eq_refl) as [Hstamp _].
  - intros t' ->%list_elem_of_singleton. discriminate.
  - intros e. discriminate.
  - destruct Hstamp as [Hstamped _]; [reflexivity..|]. exact Hstamped.
Defined.

(** ** Requests in a row against one quota *)

Section Sequential.

Variables (key : string) (t : Tenant) (L d : Z).

Hypothesis Hne : key ≠ "".
Hypothesis Hshape : String.prefix "eyJ" key = false.
Hypothesis Hkey : t_api_key t = key.
Hypothesis Hactive : t_is_active t = Some true.
Hypothesis Hquota : t_max_requests_per_day t = Some L.

(** One request with the primary key of [t], the store answering. *)
Lemma serve_one (env : Env) (req : Request) (db : DB) :
  NoDup (t_api_key <$> tenants db) →
  t ∈ tenants db →
  (∀ ak, ak ∈ api_keys db → ak_api_key ak ≠ key) →
  credential req = Some key →
  down env SelectTenantByKey = false →
  down env CountUsage = false →
  down env InsertUsage = false →
  today (now env) = d →
  let n := count_usage (t_id t) d db in
  let r := authenticateTenant env req db in
  tenants (snd r) = tenants db
  ∧ api_keys (snd r) = api_keys db
  ∧ admitted r = (n <? L)
  ∧ count_usage (t_id t) d (snd r) = if n <? L then n + 1 else n.
Proof.
  intros Hnd Ht Hnokey Hcred Hup Hcount Hinsert Hday n r.
  destruct (select_tenant_by_key_primary db key t) as [rows Hrows];
    [done..|].
  assert (r = authenticateTenant_admit env req key (unjoined t) db) as ->
    by by apply (authenticateTenant_key_eq env req db key (unjoined t) rows).
  destruct (authenticateTenant_admit_frame env req key (unjoined t) db)
    as (Hten & Hkeys & _).
  split; [done|]. split; [done|].
  rewrite authenticateTenant_admit_eq. cbn zeta.
  change (effective_limit (unjoined t)) with (t_max_requests_per_day t).
  cbn [kr_tenant unjoined]. rewrite Hcount, Hquota, Hinsert, Hday.
  cbn [orb Js.lt_num]. fold n.
  destruct (n <? L); cbn [admitted snd]; [|done].
  split; [done|]. subst n. rewrite <- Hday. apply count_usage_own_row.
Qed.

Lemma serve_many (l : list (Env * Request)) :
  ∀ db,
    NoDup (t_api_key <$> tenants db) →
    t ∈ tenants db →
    (∀ ak, ak ∈ api_keys db → ak_api_key ak ≠ key) →
    Forall (λ er, credential er.2 = Some key
                  ∧ down er.1 SelectTenantByKey = false
                  ∧ down er.1 CountUsage = false
                  ∧ down er.1 InsertUsage = false
                  ∧ today (now er.1) = d) l →
    let n := count_usage (t_id t) d db in
    Z.of_nat (served l db) = Z.of_nat (length l) `min` (0 `max` (L - n))
    ∧ count_usage (t_id t) d (serve l db) = n + Z.of_nat (served l db).
Proof.
  induction l as [|[env req] l IH]; intros db Hnd Ht Hnokey Hall n.
  - cbn. lia.
  - apply Forall_cons in Hall as [(Hcred & Hup & Hcount & Hinsert & Hday)
                                    Hall].
    cbn in Hcred, Hup, Hcount, Hinsert, Hday.
    destruct (serve_one env req db Hnd Ht Hnokey Hcred Hup Hcount Hinsert
                Hday) as (Hten & Hkeys & Hadm & Hnext).
    fold n in Hadm, Hnext.
    destruct (IH (snd (authenticateTenant env req db))) as [Hserved Hafter].
    { by rewrite Hten. }
    { by rewrite Hten. }
    { by rewrite Hkeys. }
    { done. }
    cbn [served serve foldl fst snd length] in *.
    change (foldl _ ?x l) with (serve l x).
    rewrite Hafter, Hadm, Hnext. rewrite Hnext in Hserved.
    destruct (Z.ltb_spec n L); lia.
Qed.

End Sequential.

(** X12. Requests that come one after the other on the same UTC day
    with the primary key of a tenant whose daily quota is [L], the store
    answering: starting from a count of [n], exactly the first [L - n] of
    them are let through, and the day's count ends at [n] plus that
    number, so a quota that was not exceeded before is not exceeded by
    them. *)
Theorem sequential_quota (l : list (Env * Request)) (db : DB)
    (key : string) (t : Tenant) (L d : Z) :
  key ≠ "" →
  String.prefix "eyJ" key = false →
  NoDup (t_api_key <$> tenants db) →
  t ∈ tenants db →
  t_api_key t = key →
  t_is_active t = Some true →
  t_max_requests_per_day t = Some L →
  (∀ ak, ak ∈ api_keys db → ak_api_key ak ≠ key) →
  Forall (λ er, credential er.2 = Some key
                ∧ down er.1 SelectTenantByKey = false
                ∧ down er.1 CountUsage = false
                ∧ down er.1 InsertUsage = false
                ∧ today (now er.1) = d) l →
  let n := count_usage (t_id t) d db in
  Z.of_nat (served l db) = Z.of_nat (length l) `min` (0 `max` (L - n))
  ∧ count_usage (t_id t) d (serve l db) = n + Z.of_nat (served l db)
  ∧ (n ≤ L → count_usage (t_id t) d (serve l db) ≤ L).
Proof.
  intros Hne Hshape Hnd Ht Hkey Hactive Hquota Hnokey Hall n.
  destruct (serve_many key t L d Hne Hshape Hkey Hactive Hquota l db
              Hnd Ht Hnokey Hall) as [Hserved Hafter].
  fold n in Hserved, Hafter. split; [done|]. split; [done|]. lia.
Qed.

Lemma sequential_quota_witness :
  let er := (Sample.env0, Sample.request "pk_T") in
  let later := (Sample.env_with (Sample.t0 + Sample.minute) (λ _, false),
                Sample.request "pk_T") in
  t_max_requests_per_day Sample.T = Some 2
  ∧ served [er; later; er; later; later] Sample.db0 = 2%nat
  ∧ count_usage "tenant-T" (today Sample.t0)
      (serve [er; later; er; later; later] Sample.db0) = 2.
Proof.
  intros er later. split; [reflexivity|].
  assert (∀ ak, ak ∈ api_keys Sample.db0 → ak_api_key ak ≠ "pk_T")
    as Hnokey.
  { intros ak Hak.
    repeat (apply elem_of_cons in Hak as [->|Hak]; [done|]).
    by apply elem_of_nil in Hak. }
  assert (Sample.T ∈ tenants Sample.db0) as Ht by left.
  assert (NoDup (t_api_key <$> tenants Sample.db0)) as Hnd
    by apply NoDup_singleton.
  assert ("pk_T" ≠ "") as Hne by done.
  destruct (sequential_quota [er; later; er; later; later] Sample.db0
              "pk_T" Sample.T 2 (today Sample.t0) Hne eq_refl Hnd Ht
              eq_refl eq_refl eq_refl Hnokey) as (Hserved & Hafter & _).
  { repeat constructor. }
  change (count_usage (t_id Sample.T) (today Sample.t0) Sample.db0)
    with 0 in Hserved, Hafter.
  split.
  - apply Nat2Z.inj. rewrite Hserved. reflexivity.
  - etransitivity; [exact Hafter|]. rewrite Hserved. reflexivity.
Defined.

(** ** The day boundary of the quota *)

Lemma today_next_day (t1 t2 : Z) :
  today t1 + DAY_MS ≤ t2 → t1 < today t2.
Proof. unfold today, DAY_MS. Z.div_mod_to_equations. lia. Qed.

(** X13. The day of the quota starts at midnight UTC: the lower bound
    [today ts] is a multiple of 24 hours, at most [ts] and less than 24
    hours before it. Usage records created up to a time [t1] do not count
    for a request that comes on a later UTC day: its count is zero, and
    it is let through whenever the effective limit is positive, however
    many requests were recorded before. *)
Theorem day_rollover (env : Env) (req : Request) (key : string)
    (row : KeyRow) (db : DB) (t1 L : Z) :
  (∀ u c, u ∈ api_usage_logs db → ul_created_at u = Some c → c ≤ t1) →
  today t1 + DAY_MS ≤ now env →
  effective_limit row = Some L →
  0 < L →
  (today (now env) ≤ now env < today (now env) + DAY_MS
   ∧ today (now env) `mod` DAY_MS = 0)
  ∧ count_usage (t_id (kr_tenant row)) (today (now env)) db = 0
  ∧ admitted (authenticateTenant_admit env req key row db) = true.
Proof.
  intros Hold Hlater Hlim Hpos.
  assert (count_usage (t_id (kr_tenant row)) (today (now env)) db = 0)
    as Hzero.
  { unfold count_usage.
    replace (filter _ (api_usage_logs db)) with (@nil UsageLog); [done|].
    symmetry. apply elem_of_nil_inv.
    intros u [Hw Hu]%list_elem_of_filter. apply Is_true_true in Hw.
    rewrite holds_and3, andb_true_iff in Hw. destruct Hw as [_ Hw].
    destruct (ul_created_at u) as [c|] eqn:Hc; [|done]. cbn in Hw.
    destruct (Z.leb_spec (today (now env)) c); [|done].
    pose proof (Hold u c Hu Hc). pose proof (today_next_day t1 (now env)).
    lia. }
  split; [|split; [done|]].
  - unfold today, DAY_MS. Z.div_mod_to_equations. lia.
  - rewrite authenticateTenant_admit_eq. cbn zeta.
    rewrite Hzero, Hlim. cbn [Js.lt_num].
    apply Z.ltb_lt in Hpos. rewrite Hpos, orb_true_r. reflexivity.
Qed.

Lemma day_rollover_witness :
  let tomorrow := Sample.env_with (today Sample.t0 + DAY_MS) (λ _, false) in
  count_usage "tenant-T" (today Sample.t0) Sample.db_full = 2
  ∧ admitted (authenticateTenant_admit Sample.env0 (Sample.request "pk_T")
                "pk_T" (unjoined Sample.T) Sample.db_full) = false
  ∧ admitted (authenticateTenant_admit tomorrow (Sample.request "pk_T")
                "pk_T" (unjoined Sample.T) Sample.db_full) = true.
Proof.
  intros tomorrow. split; [reflexivity|]. split; [by vm_compute|].
  apply (day_rollover tomorrow (Sample.request "pk_T") "pk_T"
           (unjoined Sample.T) Sample.db_full Sample.t0 2).
  - intros u c Hu Hc.
    repeat (apply elem_of_cons in Hu as [->|Hu];
            [injection Hc as <-; by vm_compute|]).
    by apply elem_of_nil in Hu.
  - cbn [now tomorrow Sample.env_with]. lia.
  - reflexivity.
  - lia.
Defined.

(** ** The plan gate *)

Lemma planHierarchy_other (k : string) :
  k ∉ ["basic"; "pro"; "enterprise"] → planHierarchy !! k = None.
Proof.
  intros Hk. unfold planHierarchy.
  rewrite !lookup_insert_ne, lookup_singleton_ne; [done|..];
    intros <-; apply Hk; set_solver.
Qed.

(** X14. [requirePlan] answers 401 when no tenant is attached. For a
    required plan among basic, pro and enterprise it lets the request
    through exactly when the tenant's plan is at least the required one
    in the order basic < pro < enterprise, a tenant without a plan being
    below all; otherwise it answers 403 "Plan upgrade required". A
    required plan of any other name is a gate that lets every
    authenticated tenant through. *)
Theorem plan_gate (requiredPlan : string) (req : Request) :
  (tenant req = None → requirePlan requiredPlan req = NotAuthenticated)
  ∧ (∀ t r, tenant req = Some t →
       requiredPlan = plan_key (Some r) →
       requirePlan requiredPlan req
       = if plan_rank (Some r) <=? plan_rank (plan t)
         then Next req
         else PlanUpgradeRequired requiredPlan (plan t))
  ∧ (∀ t, tenant req = Some t →
       requiredPlan ∉ ["basic"; "pro"; "enterprise"] →
       requirePlan requiredPlan req = Next req).
Proof.
  unfold requirePlan. split; [by intros ->|]. split.
  - intros t r -> ->. by destruct r, (plan t) as [[]|].
  - intros t -> Hother.
    assert (plan_level requiredPlan = Js.JNum 0
            ∨ plan_level requiredPlan = Js.JObject) as Hlevel.
    { unfold plan_level, Js.get. rewrite planHierarchy_other by done.
      case_bool_decide; [by right|by left]. }
    by destruct Hlevel as [-> | ->], (plan t) as [[]|].
Qed.

Lemma plan_gate_witness :
  let info := tenant_of_row Sample.T in
  let req := with_identity info jwt None (Sample.request Sample.token) in
  tenant req = Some info
  ∧ requirePlan "basic" req = Next req
  ∧ requirePlan "pro" req = PlanUpgradeRequired "pro" (Some basic)
  ∧ requirePlan "premium" req = Next req.
Proof.
  intros info req. split; [reflexivity|].
  destruct (plan_gate "basic" req) as (_ & Hbasic & _).
  destruct (plan_gate "pro" req) as (_ & Hpro & _).
  destruct (plan_gate "premium" req) as (_ & _ & Hother).
  split; [exact (Hbasic info basic eq_refl eq_refl)|].
  split; [exact (Hpro info pro eq_refl eq_refl)|].
  apply (Hother info eq_refl). apply (bool_decide_unpack _). by vm_compute.
Defined.

(** * Further properties of the coordinator *)

(** ** What the statements do to the connection table *)

Lemma select_tenant_for_join_sound (db : DB) (tid key : string)
    (row : Tenant) (rows : list Tenant) :
  select_tenant_for_join tid key db = row :: rows →
  row ∈ tenants db ∧ t_id row = tid ∧ t_api_key row = key
  ∧ t_is_active row = Some true.
Proof.
  intros Hrows.
  assert (row ∈ select_tenant_for_join tid key db) as Hin
    by (rewrite Hrows; left).
  apply list_elem_of_filter in Hin as [Hw Hin]. apply Is_true_true in Hw.
  rewrite !holds_and3, !andb_true_iff, !holds_eq_str, holds_is_true in Hw.
  destruct Hw as [[[= ?] [= ?]] ?]. done.
Qed.

Lemma update_ping_ids (ts : Z) (sid : string) (db : DB) :
  rc_connection_id <$> realtime_connections (update_ping ts sid db)
  = rc_connection_id <$> realtime_connections db.
Proof.
  unfold update_ping. cbn. rewrite <- list_fmap_compose.
  apply list_fmap_ext. intros _ r _. cbn.
  by destruct (String.eqb (rc_socket_id r) sid).
Qed.

Lemma delete_stale_unique (ts : Z) (db : DB) :
  unique_connection_ids db → unique_connection_ids (delete_stale ts db).
Proof.
  unfold unique_connection_ids, delete_stale. cbn.
  generalize (realtime_connections db). intros rows.
  induction rows as [|r rows IH]; [done|].
  rewrite fmap_cons, NoDup_cons. intros [Hr Hnd].
  rewrite filter_cons. case_decide; [|by apply IH].
  rewrite fmap_cons, NoDup_cons. split; [|by apply IH].
  intros (x & Hx & [_ Hin]%list_elem_of_filter)%list_elem_of_fmap.
  apply Hr. rewrite Hx. by apply list_elem_of_fmap_2.
Qed.

(** Rows of other connections under the three updates. *)
Lemma upsert_connection_foreign (ts : Z) (tid sid : string)
    (info : list (string * Z)) (db : DB) (r : Connection) :
  rc_connection_id r ≠ sid →
  r ∈ realtime_connections (upsert_connection ts tid sid sid info db)
  ↔ r ∈ realtime_connections db.
Proof.
  intros Hr. unfold upsert_connection. case_bool_decide; cbn.
  - rewrite list_elem_of_fmap. split.
    + intros (x & -> & Hx).
      destruct (String.eqb_spec (rc_connection_id x) sid); [done|done].
    + intros Hin. exists r. split; [|done].
      by destruct (String.eqb_spec (rc_connection_id r) sid).
  - rewrite elem_of_app, list_elem_of_singleton. split; [|by left].
    by intros [?| ->].
Qed.

Lemma update_ping_foreign (ts : Z) (sid : string) (db : DB)
    (r : Connection) :
  rc_socket_id r ≠ sid →
  r ∈ realtime_connections (update_ping ts sid db)
  ↔ r ∈ realtime_connections db.
Proof.
  intros Hr. unfold update_ping. cbn. rewrite list_elem_of_fmap. split.
  - intros (x & -> & Hx).
    destruct (String.eqb_spec (rc_socket_id x) sid); [done|done].
  - intros Hin. exists r. split; [|done].
    by destruct (String.eqb_spec (rc_socket_id r) sid).
Qed.

Lemma update_inactive_foreign (sid : string) (db : DB) (r : Connection) :
  rc_socket_id r ≠ sid →
  r ∈ realtime_connections (update_inactive sid db)
  ↔ r ∈ realtime_connections db.
Proof.
  intros Hr. unfold update_inactive. cbn. rewrite list_elem_of_fmap. split.
  - intros (x & -> & Hx).
    destruct (String.eqb_spec (rc_socket_id x) sid); [done|done].
  - intros Hin. exists r. split; [|done].
    by destruct (String.eqb_spec (rc_socket_id r) sid).
Qed.

(** ** One event on a socket *)

(** What a handler leaves: it never throws; the socket changes only by
    an accepted join, which binds the tenant and adds its room; the store
    changes only by the statement of the handler. *)
Lemma handle_cases (env : Env) (m : Msg) (w : Ws) :
  ∃ w', handle env m w = (Ok tt, w')
    ∧ (sock w' = sock w
       ∨ ∃ tid key row,
           m = MJoin tid key
           ∧ row ∈ tenants (store w) ∧ t_id row = tid
           ∧ t_api_key row = key ∧ t_is_active row = Some true
           ∧ sock w' = {| socket_id := socket_id (sock w);
                          connected := connected (sock w);
                          rooms := {[ room_of tid ]} ∪ rooms (sock w);
                          tenantId := Some tid;
                          socket_tenant := Some row |})
    ∧ (store w' = store w
       ∨ (∃ tid key, m = MJoin tid key
                     ∧ store w' = upsert_connection (now env) tid
                                    (socket_id (sock w))
                                    (socket_id (sock w))
                                    [("connectedAt", now env)] (store w))
       ∨ (m = MPing
          ∧ store w' = update_ping (now env) (socket_id (sock w)) (store w))
       ∨ (m = MDisconnect
          ∧ store w' = update_inactive (socket_id (sock w)) (store w))).
Proof.
  destruct m as [tid key|query| |]; cbn [handle].
  - unfold on_join_tenant. run.
    destruct (down env SelectTenantForJoin);
      [eexists; split; [done|]; split; by left|].
    destruct (select_tenant_for_join tid key (store w)) as [|row rows]
      eqn:Hrows; [eexists; split; [done|]; split; by left|].
    apply select_tenant_for_join_sound in Hrows as (? & ? & ? & ?).
    cbn. destruct (down env UpsertConnection); cbn.
    + eexists. split; [done|]. split; [|by left]. right. eauto 10.
    + eexists. split; [done|]. split; [right; eauto 10|]. right. left.
      eauto.
  - unfold on_execute_query. run.
    destruct (negb _); eexists; (split; [done|]); split; by left.
  - unfold on_ping. run. cbn.
    destruct (Js.truthy_str _);
      [|eexists; split; [done|]; split; by left].
    destruct (down env UpdatePing); cbn;
      eexists; (split; [done|]); (split; [by left|]); [by left|].
    right. right. by left.
  - unfold on_disconnect. run.
    destruct (down env UpdateInactive); cbn;
      eexists; (split; [done|]); (split; [by left|]); [by left|].
    right. right. by right.
Qed.

Lemma connection_statements_frame (env : Env) (m : Msg) (w : Ws) :
  let w' := snd (handle env m w) in
  tenants (store w') = tenants (store w)
  ∧ api_keys (store w') = api_keys (store w)
  ∧ api_usage_logs (store w') = api_usage_logs (store w)
  ∧ (unique_connection_ids (store w) → unique_connection_ids (store w')).
Proof.
  destruct (handle_cases env m w) as (w' & Hrun & _ & Hstore).
  rewrite Hrun. cbn [snd].
  destruct Hstore as [->|[(tid & key & _ & ->)|[[_ ->]|[_ ->]]]].
  - done.
  - split; [apply upsert_connection_tenants|].
    split; [unfold upsert_connection; by case_bool_decide|].
    split; [unfold upsert_connection; by case_bool_decide|].
    apply upsert_connection_unique.
  - repeat split. unfold unique_connection_ids.
    by rewrite update_ping_ids.
  - repeat split. unfold unique_connection_ids.
    by rewrite update_inactive_ids.
Qed.

Lemma step_keeps (s : Step) (w : Ws) :
  socket_id (sock (step s w)) = socket_id (sock w)
  ∧ connected (sock (step s w)) = connected (sock w)
  ∧ rooms (sock w) ⊆ rooms (sock (step s w))
  ∧ tenants (store (step s w)) = tenants (store w)
  ∧ api_keys (store (step s w)) = api_keys (store w)
  ∧ api_usage_logs (store (step s w)) = api_usage_logs (store w)
  ∧ (unique_connection_ids (store w) →
     unique_connection_ids (store (step s w))).
Proof.
  destruct s as [env m|env]; cbn [step].
  - destruct (connection_statements_frame env m w) as (? & ? & ? & ?).
    destruct (handle_cases env m w) as (w' & Hrun & Hsock & _).
    rewrite Hrun in *. cbn [snd] in *.
    destruct Hsock as [->|(tid & key & row & _ & _ & _ & _ & _ & ->)];
      cbn; repeat split; try done; set_solver.
  - cbn [sock store]. unfold cleanup_inactive_connections. run.
    destruct (down env DeleteStale); cbn; repeat split; try done.
    apply delete_stale_unique.
Qed.

(** X15. Whatever events arrive on a socket, in whatever order and
    interleaved with runs of the sweep, with any statement failing: the
    handlers change neither the id nor the connected flag of the socket
    and never take it out of a room, the tenants, the keys and the usage
    records are not written, and connection ids stay unique in the
    connection table. *)
Theorem coordinator_invariants (l : list Step) (w : Ws) :
  socket_id (sock (run_steps l w)) = socket_id (sock w)
  ∧ connected (sock (run_steps l w)) = connected (sock w)
  ∧ rooms (sock w) ⊆ rooms (sock (run_steps l w))
  ∧ tenants (store (run_steps l w)) = tenants (store w)
  ∧ api_keys (store (run_steps l w)) = api_keys (store w)
  ∧ api_usage_logs (store (run_steps l w)) = api_usage_logs (store w)
  ∧ (unique_connection_ids (store w) →
     unique_connection_ids (store (run_steps l w))).
Proof.
  revert w. induction l as [|s l IH]; intros w; [done|].
  change (run_steps (s :: l) w) with (run_steps l (step s w)).
  destruct (IH (step s w)) as (-> & -> & Hrooms & -> & -> & -> & Hnd).
  destruct (step_keeps s w) as (-> & -> & Hrooms' & -> & -> & -> & Hnd').
  repeat split; try done; [by etrans|]. intros ?. by apply Hnd, Hnd'.
Qed.

Lemma coordinator_invariants_witness :
  let down_all := Sample.env_with Sample.t0 (λ _, true) in
  let l := [OnSocket Sample.env0 (MJoin "tenant-T" "pk_T");
            OnSocket down_all MPing; Sweep Sample.env0;
            OnSocket Sample.env0 MDisconnect;
            OnSocket Sample.env0 (MJoin "tenant-T" "wrong")] in
  let w := Sample.ws0 "sock-1" Sample.db0 in
  unique_connection_ids (store w)
  ∧ unique_connection_ids (store (run_steps l w))
  ∧ socket_id (sock (run_steps l w)) = "sock-1".
Proof.
  intros down_all l w.
  assert (unique_connection_ids (store w)) as Hnd by apply NoDup_nil_2.
  split; [exact Hnd|].
  destruct (coordinator_invariants l w) as (Hid & _ & _ & _ & _ & _ & Huniq).
  split; [by apply Huniq|exact Hid].
Defined.

(** X16. A socket that starts without a tenant is only ever bound to a
    tenant by a 'join-tenant' that carried the id and the primary key of
    a tenant of the store whose active flag is true; and every room it is
    in beyond its first ones is the room of a tenant it joined that way. *)
Theorem binding_sound (l : list Step) (w : Ws) :
  tenantId (sock w) = None →
  (∀ tid, tenantId (sock (run_steps l w)) = Some tid →
     ∃ env key t, OnSocket env (MJoin tid key) ∈ l
                  ∧ t ∈ tenants (store w) ∧ t_id t = tid
                  ∧ t_api_key t = key ∧ t_is_active t = Some true)
  ∧ (∀ room, room ∈ rooms (sock (run_steps l w)) →
       room ∈ rooms (sock w)
       ∨ ∃ env tid key t,
           OnSocket env (MJoin tid key) ∈ l ∧ room = room_of tid
           ∧ t ∈ tenants (store w) ∧ t_id t = tid
           ∧ t_api_key t = key ∧ t_is_active t = Some true).
Proof.
  intros Hfresh.
  assert (∀ l w,
    (∀ tid, tenantId (sock (run_steps l w)) = Some tid →
       tenantId (sock w) = Some tid
       ∨ ∃ env key t, OnSocket env (MJoin tid key) ∈ l
                      ∧ t ∈ tenants (store w) ∧ t_id t = tid
                      ∧ t_api_key t = key ∧ t_is_active t = Some true)
    ∧ (∀ room, room ∈ rooms (sock (run_steps l w)) →
         room ∈ rooms (sock w)
         ∨ ∃ env tid key t,
             OnSocket env (MJoin tid key) ∈ l ∧ room = room_of tid
             ∧ t ∈ tenants (store w) ∧ t_id t = tid
             ∧ t_api_key t = key ∧ t_is_active t = Some true)) as Hgen.
  { clear. intros l. induction l as [|s l IH]; intros w.
    { split; intros ? ?; by left. }
    change (run_steps (s :: l) w) with (run_steps l (step s w)).
    destruct (IH (step s w)) as [Hbound Hrooms].
    destruct (step_keeps s w) as (_ & _ & _ & Hten & _).
    assert (sock (step s w) = sock w
            ∨ ∃ env tid key row,
                s = OnSocket env (MJoin tid key)
                ∧ row ∈ tenants (store w) ∧ t_id row = tid
                ∧ t_api_key row = key ∧ t_is_active row = Some true
                ∧ tenantId (sock (step s w)) = Some tid
                ∧ rooms (sock (step s w))
                  = {[ room_of tid ]} ∪ rooms (sock w)) as Hstep.
    { destruct s as [env m|env]; [|by left]. cbn [step].
      destruct (handle_cases env m w) as (w' & -> & Hsock & _). cbn [snd].
      destruct Hsock as [->|(tid & key & row & -> & ? & ? & ? & ? & ->)];
        [by left|]. right. exists env, tid, key, row. by repeat split. }
    split.
    - intros tid Htid. destruct (Hbound tid Htid) as [Hs|Hjoin].
      + destruct Hstep as [<-|(env & tid' & key & row & -> & ? & ? & ? & ?
                                & Hb & _)]; [by left|].
        rewrite Hb in Hs. injection Hs as ->. right.
        exists env, key, row. split; [left|done].
      + destruct Hjoin as (env & key & t & ? & Ht & ?). right.
        exists env, key, t. rewrite Hten in Ht. split; [by right|done].
    - intros room Hroom. destruct (Hrooms room Hroom) as [Hs|Hjoin].
      + destruct Hstep as [<-|(env & tid' & key & row & -> & ? & ? & ? & ?
                                & _ & Hr)]; [by left|].
        rewrite Hr in Hs. apply elem_of_union in Hs as [Hs|Hs]; [|by left].
        apply elem_of_singleton in Hs as ->. right.
        exists env, tid', key, row. split; [left|done].
      + destruct Hjoin as (env & tid & key & t & ? & ? & Ht & ?). right.
        exists env, tid, key, t. rewrite Hten in Ht.
        split; [by right|done]. }
  destruct (Hgen l w) as [Hbound Hrooms]. split; [|done].
  intros tid Htid. destruct (Hbound tid Htid) as [Hs|?]; [|done].
  by rewrite Hfresh in Hs.
Qed.

Lemma binding_sound_witness :
  let l := [OnSocket Sample.env0 (MJoin "tenant-T" "wrong");
            OnSocket Sample.env0 (MExecute "SELECT 1");
            OnSocket Sample.env0 (MJoin "tenant-T" "pk_T")] in
  let w := Sample.ws0 "sock-1" Sample.db0 in
  tenantId (sock w) = None
  ∧ tenantId (sock (run_steps l w)) = Some "tenant-T"
  ∧ ∃ env key t, OnSocket env (MJoin "tenant-T" key) ∈ l
                 ∧ t ∈ tenants (store w) ∧ t_api_key t = key.
Proof.
  intros l w. split; [reflexivity|]. split; [by vm_compute|].
  destruct (binding_sound l w eq_refl) as [Hbound _].
  destruct (Hbound "tenant-T") as (env & key & t & ? & ? & _ & ? & _);
    [by vm_compute|].
  exists env, key, t. done.
Defined.

(** ** Rows of other connections *)

Lemma step_foreign (s : Step) (w : Ws) (r : Connection) :
  foreign (socket_id (sock w)) r →
  (r ∈ realtime_connections (store (step s w)) →
   r ∈ realtime_connections (store w))
  ∧ ((∀ env, s ≠ Sweep env) →
     r ∈ realtime_connections (store w) →
     r ∈ realtime_connections (store (step s w))).
Proof.
  intros [Hcid Hsid]. destruct s as [env m|env]; cbn [step].
  - destruct (handle_cases env m w) as (w' & -> & _ & Hstore). cbn [snd].
    destruct Hstore as [->|[(tid & key & _ & ->)|[[_ ->]|[_ ->]]]].
    + done.
    + rewrite upsert_connection_foreign by done. done.
    + rewrite update_ping_foreign by done. done.
    + rewrite update_inactive_foreign by done. done.
  - cbn [store]. unfold cleanup_inactive_connections. run.
    destruct (down env DeleteStale); cbn.
    + split; [done|]. intros Hns. by destruct (Hns env).
    + split; [by intros [_ ?]%list_elem_of_filter|].
      intros Hns. by destruct (Hns env).
Qed.

(** X17. The handlers of a socket write only rows stored under that
    socket's id. A row with another connection id and another socket id
    that is in the table after any sequence of events and sweeps was
    already there, unchanged; and when no sweep ran in between, every
    such row that was there is still there. *)
Theorem other_connections_untouched (l : list Step) (w : Ws)
    (r : Connection) :
  foreign (socket_id (sock w)) r →
  (r ∈ realtime_connections (store (run_steps l w)) →
   r ∈ realtime_connections (store w))
  ∧ ((∀ env, Sweep env ∉ l) →
     r ∈ realtime_connections (store w) →
     r ∈ realtime_connections (store (run_steps l w))).
Proof.
  revert w. induction l as [|s l IH]; intros w Hr; [done|].
  change (run_steps (s :: l) w) with (run_steps l (step s w)).
  destruct (step_keeps s w) as (Hsid & _).
  destruct (IH (step s w)) as [Hback Hforth]; [by rewrite Hsid|].
  destruct (step_foreign s w r Hr) as [Hback' Hforth'].
  split; [by intros ?%Hback%Hback'|].
  intros Hns Hin. apply Hforth.
  - intros env Hin'. apply (Hns env). by right.
  - apply Hforth'; [|done]. intros env ->. apply (Hns env). left.
Qed.

Lemma other_connections_untouched_witness :
  let other := Sample.conn "sock-2" (Sample.t0 - Sample.minute) true in
  let w := Sample.ws0 "sock-1"
             (with_realtime_connections [other] Sample.db0) in
  let l := [OnSocket Sample.env0 (MJoin "tenant-T" "pk_T");
            OnSocket Sample.env0 MPing;
            OnSocket Sample.env0 MDisconnect] in
  foreign (socket_id (sock w)) other
  ∧ other ∈ realtime_connections (store (run_steps l w)).
Proof.
  intros other w l.
  assert (foreign (socket_id (sock w)) other) as Hforeign by by split.
  split; [exact Hforeign|].
  destruct (other_connections_untouched l w other Hforeign) as [_ Hkept].
  apply Hkept; [|left].
  intros env Hin.
  repeat (apply elem_of_cons in Hin as [Hin|Hin]; [discriminate Hin|]).
  by apply elem_of_nil in Hin.
Defined.

(** ** Disconnect and the sweep *)




(** ** The heartbeat *)

(** X19. 'ping' always answers exactly one 'pong' and never changes the
    socket. On a socket without a tenant, or when the update fails, the
    store is left as it was. On a socket bound to a tenant it sets the
    last heartbeat of every row stored under the socket's id to the time
    of the ping and neither adds nor removes a row; a sweep executed no
    later than ten minutes after the ping then keeps each of those rows
    unless its active flag is false. *)
Theorem heartbeat_keeps_alive (env envs : Env) (w : Ws) :
  let sid := socket_id (sock w) in
  let w1 := snd (on_ping env w) in
  (out w1 = (out w ++ [ToSocket EvPong])%list ∧ sock w1 = sock w)
  ∧ (Js.truthy_str (tenantId (sock w)) = false → store w1 = store w)
  ∧ (down env UpdatePing = true → store w1 = store w)
  ∧ (Js.truthy_str (tenantId (sock w)) = true →
     down env UpdatePing = false →
     rc_connection_id <$> realtime_connections (store w1)
     = rc_connection_id <$> realtime_connections (store w)
     ∧ (∀ r, r ∈ rows_of_socket sid (store w1) →
             rc_last_ping_at r = Some (now env))
     ∧ (down envs DeleteStale = false →
        now envs - 10 * 60 * 1000 ≤ now env →
        ∀ r, r ∈ rows_of_socket sid (store w1) →
             rc_is_active r ≠ Some false →
             r ∈ realtime_connections
                   (snd (cleanup_inactive_connections envs (store w1))))).
Proof.
  intros sid w1. subst w1. unfold on_ping. run. cbn.
  split; [by destruct (Js.truthy_str _), (down env UpdatePing)|].
  split; [by intros ->|].
  split; [intros ->; by destruct (Js.truthy_str _)|].
  intros -> ->. cbn.
  assert (∀ r, r ∈ rows_of_socket sid (update_ping (now env) sid (store w)) →
               rc_last_ping_at r = Some (now env)) as Hfresh.
  { intros r [Hsid (x & -> & Hx)%list_elem_of_fmap]%list_elem_of_filter.
    destruct (String.eqb_spec (rc_socket_id x) sid); [done|].
    by destruct Hsid. }
  split; [apply update_ping_ids|]. split; [done|].
  intros Hup Hsoon r Hr Hactive.
  unfold cleanup_inactive_connections. run. rewrite Hup. cbn.
  apply list_elem_of_filter. split.
  - apply not_true_iff_false.
    intros [(p & Hp & Hlt)|Hoff]%stale_spec; [|done].
    rewrite (Hfresh r Hr) in Hp. injection Hp as <-.
    unfold STALE_MS in Hlt. lia.
  - by apply list_elem_of_filter in Hr as [_ ?].
Qed.

Lemma heartbeat_keeps_alive_witness :
  let w := snd (on_join_tenant Sample.env0 "tenant-T" "pk_T"
                  (Sample.ws0 "sock-1" Sample.db0)) in
  let at9 := Sample.env_with (Sample.t0 + 9 * Sample.minute) (λ _, false) in
  let at18 := Sample.env_with (Sample.t0 + 18 * Sample.minute) (λ _, false) in
  let w1 := snd (on_ping at9 w) in
  Js.truthy_str (tenantId (sock w)) = true
  ∧ realtime_connections
      (snd (cleanup_inactive_connections at18 (store w))) = []
  ∧ ∀ r, r ∈ rows_of_socket "sock-1" (store w1) →
         r ∈ realtime_connections
               (snd (cleanup_inactive_connections at18 (store w1))).
Proof.
  intros w at9 at18 w1. split; [reflexivity|]. split; [by vm_compute|].
  destruct (heartbeat_keeps_alive at9 at18 w) as (_ & _ & _ & Halive).
  destruct (Halive eq_refl eq_refl) as (_ & _ & Hkept).
  intros r Hr. apply Hkept; [reflexivity|by vm_compute|exact Hr|].
  apply list_elem_of_filter in Hr as [_ Hr].
  apply list_elem_of_singleton in Hr as ->. discriminate.
Defined.

(** ** The sweep, run again *)

(** X20. A failure of the sweep is swallowed: the run returns and the
    table is left as it was. Two executed sweeps in a row delete what the
    later one alone would delete: sweeping is idempotent, and an earlier
    sweep never keeps the later one from reaching the same table. *)
Theorem sweep_again (env1 env2 : Env) (db : DB) :
  (down env1 DeleteStale = true →
   cleanup_inactive_connections env1 db = (Ok tt, db))
  ∧ (down env1 DeleteStale = false →
     down env2 DeleteStale = false →
     now env1 ≤ now env2 →
     snd (cleanup_inactive_connections env2
            (snd (cleanup_inactive_connections env1 db)))
     = snd (cleanup_inactive_connections env2 db)).
Proof.
  unfold cleanup_inactive_connections. run. split; [by intros ->|].
  intros -> -> Hle. cbn. unfold delete_stale, with_realtime_connections.
  cbn. f_equal. rewrite list_filter_filter. apply list_filter_iff.
  intros r. split; [tauto|]. intros Hkeep. split; [done|].
  apply not_true_iff_false. intros Hstale.
  assert (stale (now env2) r = true); [|congruence].
  apply stale_spec. apply stale_spec in Hstale as [(p & ? & ?)|?];
    [left; exists p; split; [done|lia]|by right].
Qed.

Lemma sweep_again_witness :
  let later := Sample.env_with (Sample.t0 + Sample.minute) (λ _, false) in
  let db := with_realtime_connections
              [Sample.conn "a" (Sample.t0 - 11 * Sample.minute) true;
               Sample.conn "b" (Sample.t0 - 9 * Sample.minute - 1) true;
               Sample.conn "c" Sample.t0 true] Sample.db0 in
  now Sample.env0 ≤ now later
  ∧ rc_connection_id <$>
      realtime_connections
        (snd (cleanup_inactive_connections later
                (snd (cleanup_inactive_connections Sample.env0 db))))
    = ["c"].
Proof.
  intros later db. split; [by vm_compute|].
  destruct (sweep_again Sample.env0 later db) as [_ Htwice].
  rewrite Htwice; [by vm_compute|reflexivity|reflexivity|by vm_compute].
Defined.

(** ** Joining *)

Lemma connections_of_conflict (ts : Z) (cid : string)
    (rows : list Connection) :
  filter (λ r, rc_connection_id r = cid)
    ((λ r, if String.eqb (rc_connection_id r) cid then refresh ts r else r)
     <$> rows)
  = refresh ts <$> filter (λ r, rc_connection_id r = cid) rows.
Proof.
  induction rows as [|r rows IH]; [done|].
  rewrite fmap_cons.
  destruct (String.eqb_spec (rc_connection_id r) cid) as [Heq|Hne].
  - rewrite (filter_cons_True _ r) by done.
    rewrite filter_cons_True by done. by rewrite fmap_cons, IH.
  - rewrite (filter_cons_False _ r) by done.
    by rewrite filter_cons_False by done.
Qed.

Lemma upsert_connection_fresh (ts : Z) (tid cid sid : string)
    (info : list (string * Z)) (db : DB) :
  cid ∉ rc_connection_id <$> realtime_connections db →
  realtime_connections (upsert_connection ts tid cid sid info db)
  = (realtime_connections db
     ++ [ {| rc_tenant_id := Some tid; rc_connection_id := cid;
             rc_socket_id := sid; rc_user_info := info;
             rc_connected_at := Some ts; rc_last_ping_at := Some ts;
             rc_is_active := Some true |} ])%list.
Proof.
  intros Hnew. unfold upsert_connection.
  by rewrite bool_decide_eq_false_2.
Qed.

(** An accepted join, as one run. *)
Lemma on_join_tenant_run (env : Env) (tid key : string) (w : Ws)
    (t : Tenant) (rows : list Tenant) :
  down env SelectTenantForJoin = false →
  down env UpsertConnection = false →
  select_tenant_for_join tid key (store w) = t :: rows →
  on_join_tenant env tid key w
  = (Ok tt,
     {| sock := {| socket_id := socket_id (sock w);
                   connected := connected (sock w);
                   rooms := {[ room_of tid ]} ∪ rooms (sock w);
                   tenantId := Some tid;
                   socket_tenant := Some t |};
        store := upsert_connection (now env) tid (socket_id (sock w))
                   (socket_id (sock w)) [("connectedAt", now env)]
                   (store w);
        out := out w ++ [ToSocket (EvJoined tid t)] |}).
Proof.
  intros Hup Hup' Hrows. unfold on_join_tenant. run.
  rewrite Hup, Hrows. cbn. by rewrite Hup'.
Qed.

(** X21. The first accepted join of a socket: the lookup found an active
    tenant with the id and primary key sent, the socket is bound to it
    and put in its room, one row is appended to the connection table
    under the socket's id, owned by the tenant, active, connected and
    last heard at the time of the join, and the one event emitted is
    'joined' with that tenant. *)
Theorem join_creates_connection (env : Env) (tid key : string) (w : Ws) :
  down env SelectTenantForJoin = false →
  down env UpsertConnection = false →
  valid_tenant (store w) tid key →
  socket_id (sock w) ∉ rc_connection_id <$> realtime_connections (store w) →
  let sid := socket_id (sock w) in
  let w' := snd (on_join_tenant env tid key w) in
  ∃ t, t ∈ tenants (store w) ∧ t_id t = tid ∧ t_api_key t = key
       ∧ t_is_active t = Some true
       ∧ out w' = (out w ++ [ToSocket (EvJoined tid t)])%list
       ∧ tenantId (sock w') = Some tid
       ∧ socket_tenant (sock w') = Some t
       ∧ rooms (sock w') = {[ room_of tid ]} ∪ rooms (sock w)
       ∧ realtime_connections (store w')
         = (realtime_connections (store w)
            ++ [ {| rc_tenant_id := Some tid; rc_connection_id := sid;
                    rc_socket_id := sid;
                    rc_user_info := [("connectedAt", now env)];
                    rc_connected_at := Some (now env);
                    rc_last_ping_at := Some (now env);
                    rc_is_active := Some true |} ])%list.
Proof.
  intros Hup Hup' Hvalid Hnew sid w'.
  destruct (select_tenant_for_join_valid _ _ _ Hvalid) as (t & rows & Hrows).
  pose proof (select_tenant_for_join_sound _ _ _ _ _ Hrows)
    as (? & ? & ? & ?).
  exists t. subst w'.
  rewrite (on_join_tenant_run env tid key w t rows) by done.
  cbn [snd sock store out rooms tenantId socket_tenant].
  rewrite upsert_connection_fresh by done. by repeat split.
Qed.

Lemma join_creates_connection_witness :
  let w := Sample.ws0 "sock-1" Sample.db0 in
  let w' := snd (on_join_tenant Sample.env0 "tenant-T" "pk_T" w) in
  valid_tenant (store w) "tenant-T" "pk_T"
  ∧ out w' = [ToSocket (EvJoined "tenant-T" Sample.T)]
  ∧ rc_tenant_id <$> realtime_connections (store w') = [Some "tenant-T"].
Proof.
  intros w w'.
  assert (valid_tenant (store w) "tenant-T" "pk_T") as Hv.
  { exists Sample.T. split; [left|done]. }
  split; [exact Hv|].
  destruct (join_creates_connection Sample.env0 "tenant-T" "pk_T" w
              eq_refl eq_refl Hv)
    as (t & Ht & _ & _ & _ & Hout & _ & _ & _ & Hrows).
  { by intros ?%elem_of_nil. }
  apply list_elem_of_singleton in Ht as ->.
  split; [exact Hout|]. fold w' in Hrows. by rewrite Hrows.
Defined.

(** X22. A socket that joined tenant A and then joins tenant B: it is
    bound to B, but it is still in the room of A as well as in the room
    of B, and the connection row, written by the first join, still names
    A as its tenant: the conflict branch of the upsert refreshes the
    heartbeat and the active flag only. *)
Theorem rejoin_other_tenant (env1 env2 : Env) (w : Ws)
    (tidA keyA tidB keyB : string) :
  down env1 SelectTenantForJoin = false →
  down env1 UpsertConnection = false →
  down env2 SelectTenantForJoin = false →
  down env2 UpsertConnection = false →
  valid_tenant (store w) tidA keyA →
  valid_tenant (store w) tidB keyB →
  socket_id (sock w) ∉ rc_connection_id <$> realtime_connections (store w) →
  let sid := socket_id (sock w) in
  let w1 := snd (on_join_tenant env1 tidA keyA w) in
  let w2 := snd (on_join_tenant env2 tidB keyB w1) in
  tenantId (sock w2) = Some tidB
  ∧ room_of tidA ∈ rooms (sock w2)
  ∧ room_of tidB ∈ rooms (sock w2)
  ∧ ∃ row, connections_of sid (store w2) = [row]
           ∧ rc_tenant_id row = Some tidA
           ∧ rc_last_ping_at row = Some (now env2)
           ∧ rc_connected_at row = Some (now env1).
Proof.
  intros Hup1 Hup1' Hup2 Hup2' HvA HvB Hnew sid w1 w2.
  destruct (select_tenant_for_join_valid _ _ _ HvA) as (tA & rowsA & HrowsA).
  assert (tenants (store w1) = tenants (store w)
          ∧ socket_id (sock w1) = sid
          ∧ rooms (sock w1) = {[ room_of tidA ]} ∪ rooms (sock w)
          ∧ realtime_connections (store w1)
            = (realtime_connections (store w)
               ++ [ {| rc_tenant_id := Some tidA; rc_connection_id := sid;
                       rc_socket_id := sid;
                       rc_user_info := [("connectedAt", now env1)];
                       rc_connected_at := Some (now env1);
                       rc_last_ping_at := Some (now env1);
                       rc_is_active := Some true |} ])%list)
    as (Hten1 & Hsid1 & Hrooms1 & Hrows1).
  { subst w1. rewrite (on_join_tenant_run env1 tidA keyA w tA rowsA) by done.
    cbn [snd sock store socket_id rooms].
    split; [apply upsert_connection_tenants|]. split; [done|].
    split; [done|]. by apply upsert_connection_fresh. }
  assert (valid_tenant (store w1) tidB keyB) as HvB1.
  { destruct HvB as (t & ? & ?). exists t. by rewrite Hten1. }
  destruct (select_tenant_for_join_valid _ _ _ HvB1) as (tB & rowsB & HrowsB).
  subst w2. rewrite (on_join_tenant_run env2 tidB keyB w1 tB rowsB) by done.
  cbn [snd sock store tenantId rooms].
  split; [done|].
  split; [rewrite Hrooms1; apply elem_of_union; right;
          apply elem_of_union; left; by apply elem_of_singleton|].
  split; [apply elem_of_union; left; by apply elem_of_singleton|].
  unfold connections_of, upsert_connection. rewrite Hsid1.
  rewrite bool_decide_eq_true_2.
  2:{ rewrite Hrows1, fmap_app. apply elem_of_app. right. left. }
  cbn [realtime_connections with_realtime_connections].
  rewrite connections_of_conflict, Hrows1, filter_app.
  rewrite filter_cons_True, filter_nil by done.
  replace (filter _ (realtime_connections (store w))) with (@nil Connection).
  2:{ symmetry. apply elem_of_nil_inv.
      intros x [Hx Hin]%list_elem_of_filter. apply Hnew.
      subst sid. rewrite <- Hx. by apply list_elem_of_fmap_2. }
  eexists. split; [reflexivity|]. done.
Qed.

Lemma rejoin_other_tenant_witness :
  let U := {| t_id := "tenant-U"; t_name := "U"; t_subdomain := "u";
              t_api_key := "pk_U"; t_plan := Some pro;
              t_max_endpoints := None; t_max_requests_per_day := None;
              t_is_active := Some true |} in
  let db := {| tenants := [Sample.T; U]; api_keys := [];
               api_usage_logs := []; realtime_connections := [] |} in
  let w := Sample.ws0 "sock-1" db in
  let w2 := snd (on_join_tenant Sample.env0 "tenant-U" "pk_U"
                   (snd (on_join_tenant Sample.env0 "tenant-T" "pk_T" w))) in
  valid_tenant db "tenant-T" "pk_T"
  ∧ valid_tenant db "tenant-U" "pk_U"
  ∧ tenantId (sock w2) = Some "tenant-U"
  ∧ rc_tenant_id <$> realtime_connections (store w2) = [Some "tenant-T"].
Proof.
  intros U db w w2.
  assert (valid_tenant (store w) "tenant-T" "pk_T") as HvT.
  { exists Sample.T. split; [left|done]. }
  assert (valid_tenant (store w) "tenant-U" "pk_U") as HvU.
  { exists U. split; [right; left|done]. }
  split; [exact HvT|]. split; [exact HvU|].
  destruct (rejoin_other_tenant Sample.env0 Sample.env0 w
              "tenant-T" "pk_T" "tenant-U" "pk_U"
              eq_refl eq_refl eq_refl eq_refl HvT HvU) as (Hbound & _).
  { by intros ?%elem_of_nil. }
  split; [exact Hbound|]. by vm_compute.
Defined.

(** ** Capability names that every object has *)

(** X23. The permission set is read as a plain object. For a capability
    name that is a member every object inherits ("constructor",
    "toString", ...), the read is truthy unless the set has an entry of
    its own under that name, so the permission check lets every
    authenticated tenant through, whatever its plan and its permissions. *)
Theorem inherited_names_pass (permission : string) (req : Request)
    (t : TenantInfo) :
  tenant req = Some t →
  permission ∈ Js.Object_prototype →
  default ∅ (permissions t) !! permission = None →
  grants t permission = true
  ∧ requirePermission permission req = Next req.
Proof.
  intros Ht Hin Hown.
  assert (grants t permission = true) as Hgrants.
  { unfold grants, Js.get. rewrite Hown.
    by rewrite bool_decide_eq_true_2. }
  split; [done|]. unfold requirePermission. by rewrite Ht, Hgrants.
Qed.

Lemma inherited_names_pass_witness :
  let info := tenant_of_key_row (unjoined Sample.T) in
  let req := with_identity info api_key (Some "pk_T")
               (Sample.request "pk_T") in
  plan info = Some basic
  ∧ permissions info = Some ∅
  ∧ requirePermission "read" req = PermissionDenied "read"
  ∧ requirePermission "constructor" req = Next req.
Proof.
  intros info req. split; [reflexivity|]. split; [reflexivity|].
  split; [by vm_compute|].
  destruct (inherited_names_pass "constructor" req info eq_refl)
    as [_ Hpass]; [|reflexivity|exact Hpass].
  left.
Defined.
